(** * cxxstreams: the [Stream] base class of [stream.hpp]

    A shallow embedding of [cxxstreams::Stream<T, S, IMPL>], its chaining
    operation [limit], its terminal operations and the two factory functions
    [make_stream] and [make_reverse_stream].

    - A stage is any type with a [next] member returning [std::optional<T>];
      calling it mutates the stage, so [next] maps a stage to the pulled
      element and the stage afterwards.
    - The [while (element)] loops of the terminal operations run as long as the
      chain keeps yielding; they are written with a fuel argument and return
      [OutOfFuel] when it does not suffice.
    - [static_assert], [requires] and [if constexpr] are decided when a template
      is instantiated.  An instantiation is a value of [compiled A]: either
      the instantiated code or the diagnostic that rejects it. *)

From Stdlib Require Import String ZArith Bool Arith Lia List.
Import ListNotations.

Set Implicit Arguments.

(** ** Outcomes of template instantiation *)

Inductive diagnostic : Type :=
| static_assert_failed (message : string)
| constraint_not_satisfied (constraint : string)
| no_match_for_operator (operator : string)
| no_viable_conversion.

Inductive compiled (A : Type) : Type :=
| WellFormed (a : A)
| IllFormed (d : diagnostic).

Arguments WellFormed {A} a.
Arguments IllFormed {A} d.

Definition is_well_formed {A : Type} (c : compiled A) : bool :=
  match c with
  | WellFormed _ => true
  | IllFormed _ => false
  end.

(** An expression [a OP b] in instantiated code needs the operator to exist
    for the operand type. *)
Definition use_operator {Op A : Type} (op : option Op) (name : string)
    (k : Op -> compiled A) : compiled A :=
  match op with
  | Some f => k f
  | None => IllFormed (no_match_for_operator name)
  end.

(** ** Outcomes of running a loop *)

Inductive outcome (A : Type) : Type :=
| Done (a : A)
| OutOfFuel.

Arguments Done {A} a.
Arguments OutOfFuel {A}.

(** ** [size_t] *)

Definition SIZE_WIDTH : Z := 64.
Definition SIZE_MODULUS : Z := 2 ^ SIZE_WIDTH.

Definition size_t_wrap (z : Z) : Z := z mod SIZE_MODULUS.

(** ** The capability queries of [concepts.hpp] *)

Module concepts.

(** Modelled from the spec: [concepts.hpp] is not part of the sources.  The
    spec lists the trait collaborators as "presence of [+], presence of [<]
    and/or [>]"; an element type is described by the operators it provides. *)
Record element_ops (T : Type) : Type := {
  op_add : option (T -> T -> T);
  op_lth : option (T -> T -> bool);
  op_gth : option (T -> T -> bool)
}.

Definition provided {Op : Type} (op : option Op) : bool :=
  match op with
  | Some _ => true
  | None => false
  end.

Definition has_add {T} (ops : element_ops T) : bool := provided (op_add ops).
Definition has_lth {T} (ops : element_ops T) : bool := provided (op_lth ops).
Definition has_gth {T} (ops : element_ops T) : bool := provided (op_gth ops).

(** Modelled from the spec: the container collaborators, "presence of
    append-assignment or push-back-style insertion, default-constructibility
    of a target collection type" and "any container type exposing
    [cbegin()/cend()] cursor pairs (and [crbegin()/crend()] for the
    reverse-order entry point)".  [elements] is the sequence a traversal from
    [cbegin()] to [cend()] visits. *)
Record container (C T : Type) : Type := {
  is_const_iterable : bool;
  is_const_reverse_iterable : bool;
  elements : C -> list T;
  default_constructed : option C;
  op_add_assign : option (C -> T -> C);
  push_back : option (C -> T -> C)
}.

Definition is_default_constructible {C T} (tr : container C T) : bool :=
  provided (default_constructed tr).
Definition has_add_assign {C T} (tr : container C T) : bool :=
  provided (op_add_assign tr).
Definition has_push_back {C T} (tr : container C T) : bool :=
  provided (push_back tr).

End concepts.

(** ** The streamable capability

    [concepts::is_streamable]: the type has a [next()] member returning an
    optional element. *)

Class Streamable (IMPL T : Type) : Type := {
  next : IMPL -> option T * IMPL
}.

(** The stage type determines the instance; the element type follows. *)
#[global] Hint Mode Streamable ! - : typeclass_instances.

Section Drains.
Context {IMPL T : Type} `{Streamable IMPL T}.

(** [drains self l self']: successive pulls on [self] yield the elements of
    [l] in order, the pull after them reports empty, and the stage is then in
    state [self']. *)
Inductive drains : IMPL -> list T -> IMPL -> Prop :=
| drains_empty : forall self self',
    next self = (None, self') -> drains self [] self'
| drains_yield : forall self value self1 l self',
    next self = (Some value, self1) ->
    drains self1 l self' ->
    drains self (value :: l) self'.

End Drains.

(** ** [LimitingStream], the stage built by [Stream::limit] *)

Record LimitingStream (IMPL : Type) : Type := {
  limit_upstream : IMPL;
  limit_max_count : Z;
  limit_count : Z
}.

(** Modelled from the spec: [LimitingStream::next] of [limiting_stream.hpp],
    which is not part of the sources.  "State: owned upstream stage, a maximum
    count, a consumed-so-far counter (starts at 0).  pull-next(): if counter
    has reached maximum, return empty unconditionally.  Otherwise pull from
    upstream; if upstream yields empty, propagate empty; otherwise increment
    counter and return the value."  Both counts are [size_t], as the
    [max_count] parameter of [Stream::limit] is. *)
Definition LimitingStream_next {IMPL T : Type} `{Streamable IMPL T}
    (self : LimitingStream IMPL) : option T * LimitingStream IMPL :=
  if (limit_max_count self <=? limit_count self)%Z then (None, self)
  else
    let '(element, upstream) := next (limit_upstream self) in
    match element with
    | None =>
        (None, {| limit_upstream := upstream;
                  limit_max_count := limit_max_count self;
                  limit_count := limit_count self |})
    | Some value =>
        (Some value, {| limit_upstream := upstream;
                        limit_max_count := limit_max_count self;
                        limit_count := size_t_wrap (limit_count self + 1) |})
    end.

#[export] Instance LimitingStream_Streamable {IMPL T : Type} `{Streamable IMPL T}
  : Streamable (LimitingStream IMPL) T := {| next := LimitingStream_next |}.

(** ** The cursors of a container *)

(** A [const_iterator] is a position in the sequence of the container it
    points into; [cend()] is the position one past the last element.
    Dereferencing a cursor that designates no element gives no value. *)
Record const_iterator (T : Type) : Type := {
  sequence : list T;
  position : nat
}.

(** [std::reverse_iterator<const_iterator>]: it holds the forward cursor
    [current] and designates the element just before it. *)
Record const_reverse_iterator (T : Type) : Type := {
  current : const_iterator T
}.

Class Iterator (I T : Type) : Type := {
  deref : I -> option T;
  incr : I -> I;
  iter_eqb : I -> I -> bool
}.

#[global] Hint Mode Iterator ! - : typeclass_instances.

#[export] Instance const_iterator_Iterator {T : Type} : Iterator (const_iterator T) T := {|
  deref it := nth_error (sequence it) (position it);
  incr it := {| sequence := sequence it; position := S (position it) |};
  iter_eqb a b := Nat.eqb (position a) (position b)
|}.

#[export] Instance const_reverse_iterator_Iterator {T : Type}
  : Iterator (const_reverse_iterator T) T := {|
  deref it :=
    match position (current it) with
    | O => None
    | S p => nth_error (sequence (current it)) p
    end;
  incr it :=
    {| current := {| sequence := sequence (current it);
                     position := Nat.pred (position (current it)) |} |};
  iter_eqb a b := Nat.eqb (position (current a)) (position (current b))
|}.

Section Cursors.
Context {C T : Type} (tr : concepts.container C T).

Definition cbegin (c : C) : const_iterator T :=
  {| sequence := concepts.elements tr c; position := 0 |}.
Definition cend (c : C) : const_iterator T :=
  {| sequence := concepts.elements tr c;
     position := length (concepts.elements tr c) |}.
Definition crbegin (c : C) : const_reverse_iterator T := {| current := cend c |}.
Definition crend (c : C) : const_reverse_iterator T := {| current := cbegin c |}.

End Cursors.

(** ** [IteratorStreamable], the cursor-pair source adapter *)

Record IteratorStreamable (I : Type) : Type := {
  iter_begin : I;
  iter_end : I
}.

(** Modelled from the spec: [IteratorStreamable::next] of
    [iterator_streamable.hpp], which is not part of the sources.  "Each call
    compares begin to end; if unequal, dereferences begin, advances it, and
    returns the dereferenced value wrapped; if equal, returns empty and
    remains empty on all subsequent calls." *)
Definition IteratorStreamable_next {I T : Type} `{Iterator I T}
    (self : IteratorStreamable I) : option T * IteratorStreamable I :=
  if iter_eqb (iter_begin self) (iter_end self) then (None, self)
  else
    (deref (iter_begin self),
     {| iter_begin := incr (iter_begin self); iter_end := iter_end self |}).

#[export] Instance IteratorStreamable_Streamable {I T : Type} `{Iterator I T}
  : Streamable (IteratorStreamable I) T := {| next := IteratorStreamable_next |}.

(** ** [BasicStream], the pipeline root *)

(** The [_streamable] member of [Stream] (line 40). *)
Record BasicStream (S : Type) : Type := {
  _streamable : S
}.

(** Modelled from the spec: [BasicStream::next] of [basic_stream.hpp], which
    is not part of the sources.  The root stage has no logic of its own: a
    pull is a pull on the source adapter it owns. *)
Definition BasicStream_next {S T : Type} `{Streamable S T}
    (self : BasicStream S) : option T * BasicStream S :=
  let '(element, streamable) := next (_streamable self) in
  (element, {| _streamable := streamable |}).

#[export] Instance BasicStream_Streamable {S T : Type} `{Streamable S T}
  : Streamable (BasicStream S) T := {| next := BasicStream_next |}.

(** ** Callables and [std::function]

    The [requires] clauses of the chaining operations ask whether the type of
    the callable converts to a [std::function<R(A)>].  The converting
    constructor of [std::function<R(A)>] takes part in overload resolution
    exactly when the callable can be invoked with [std::declval<A>()] and the
    result converts to [R], where every result converts to [void].  A callable
    over the element type is described by how it takes its argument and what
    it returns.  The description covers callables whose parameter is the
    element type itself, taken by value or by one of the three references,
    and an element type that can be copied; a by-value parameter over a
    move-only element type, or a parameter of another type, is outside it. *)

Module callable.

Inductive parameter : Type :=
| by_value          (* T        *)
| lvalue_ref        (* T&       *)
| const_lvalue_ref  (* const T& *)
| rvalue_ref.       (* T&&      *)

Inductive result : Type :=
| returns_void
| returns_bool
| returns_other.    (* a type that does not convert to bool *)

Record signature : Type := {
  sig_result : result;
  sig_parameter : parameter
}.

Inductive value_category : Type := lvalue | const_lvalue | rvalue.

(** The value category of [std::declval<A>()]. *)
Definition declval (a : parameter) : value_category :=
  match a with
  | by_value => rvalue
  | lvalue_ref => lvalue
  | const_lvalue_ref => const_lvalue
  | rvalue_ref => rvalue
  end.

(** Reference binding for a copyable element type. *)
Definition binds (p : parameter) (v : value_category) : bool :=
  match p, v with
  | by_value, _ => true
  | const_lvalue_ref, _ => true
  | lvalue_ref, lvalue => true
  | lvalue_ref, _ => false
  | rvalue_ref, rvalue => true
  | rvalue_ref, _ => false
  end.

Definition result_converts (from to : result) : bool :=
  match to, from with
  | returns_void, _ => true
  | returns_bool, returns_bool => true
  | returns_other, returns_other => true
  | _, _ => false
  end.

(** [std::is_convertible_v<F, std::function<R(A)>>]. *)
Definition is_convertible (F function : signature) : bool :=
  binds (sig_parameter F) (declval (sig_parameter function))
  && result_converts (sig_result F) (sig_result function).

(** [std::invoke_result_t<F, A>]: the result type of calling [F] with
    [std::declval<A>()], when that call is well-formed. *)
Definition invoke_result (F : signature) (a : parameter) : option result :=
  if binds (sig_parameter F) (declval a) then Some (sig_result F) else None.

(** The shape [T -> bool], [std::function<bool(T)>]. *)
Definition predicate_shape : signature :=
  {| sig_result := returns_bool; sig_parameter := by_value |}.

End callable.

(** ** [FilteringStream], the stage built by [Stream::filter]

    Its constructor takes the stage it wraps and the callable (line 56). *)

Record FilteringStream (IMPL F : Type) : Type := {
  filter_upstream : IMPL;
  filter_function : F
}.

(** ** [MappingStream], the stage built by [Stream::map]

    [MappingStream<R, IMPL, M>]: its constructor takes the stage it wraps and
    the callable (line 62); [R] is the result type of the callable. *)

Record MappingStream (R : callable.result) (IMPL M : Type) : Type := {
  map_upstream : IMPL;
  map_function : M
}.

(** ** The members of [Stream] *)

Module Stream.

(** A terminal operation on a stage of type [IMPL]: given the fuel and the
    stage, its result together with the stage it leaves. *)
Definition terminal (IMPL A : Type) : Type := nat -> IMPL -> outcome (A * IMPL).

Section Members.
Context {IMPL T : Type} `{Streamable IMPL T}.

(** The [requires] clause of [filter] (line 54); [shape] describes the
    callable type [F]. *)
Definition filter_requires (shape : callable.signature) : bool :=
  callable.is_convertible shape
    {| callable.sig_result := callable.returns_void;
       callable.sig_parameter := callable.lvalue_ref |}.

Definition filter {F : Type} (shape : callable.signature) (self : IMPL) (filter : F)
  : compiled (FilteringStream IMPL F) :=
  if filter_requires shape then
    WellFormed {| filter_upstream := self; filter_function := filter |}
  else
    IllFormed (constraint_not_satisfied
      "is_convertible_v<F, std::function<void(T&)>>").

(** [map] (lines 59-63).  The default template argument
    [R = std::invoke_result_t<M, T>] has to exist before the [requires]
    clause is looked at; [shape] describes the callable type [M]. *)
Definition map_requires (shape : callable.signature) : bool :=
  match callable.invoke_result shape callable.by_value with
  | Some R =>
      callable.is_convertible shape
        {| callable.sig_result := R; callable.sig_parameter := callable.by_value |}
  | None => false
  end.

Definition map {M : Type} (shape : callable.signature) (self : IMPL) (mapper : M)
  : compiled (MappingStream (callable.sig_result shape) IMPL M) :=
  if map_requires shape then
    WellFormed {| map_upstream := self; map_function := mapper |}
  else
    IllFormed (constraint_not_satisfied
      "is_convertible_v<M, std::function<R(T)>>").

Definition limit (self : IMPL) (max_count : Z) : LimitingStream IMPL :=
  {| limit_upstream := self; limit_max_count := max_count; limit_count := 0 |}.

Definition find_first (self : IMPL) : option T * IMPL := next self.

Fixpoint reduce_loop (fuel : nat) (function : T -> T -> T) (acc : T)
    (next_ : option T) (self : IMPL) : outcome (option T * IMPL) :=
  match next_ with
  | None => Done (Some acc, self)
  | Some value =>
      match fuel with
      | O => OutOfFuel
      | S fuel' =>
          let acc := function acc value in
          let '(next_, self) := next self in
          reduce_loop fuel' function acc next_ self
      end
  end.

Definition reduce (function : T -> T -> T) : terminal IMPL (option T) :=
  fun fuel self =>
    let '(element, self) := next self in
    match element with
    | None => Done (None, self)
    | Some acc =>
        let '(next_, self) := next self in
        reduce_loop fuel function acc next_ self
    end.

Definition sum (ops : concepts.element_ops T) : compiled (terminal IMPL (option T)) :=
  if concepts.has_add ops then
    use_operator (concepts.op_add ops) "+"
      (fun add => WellFormed (reduce (fun a b => add a b)))
  else
    IllFormed (static_assert_failed "Stream value type doesn't implement operator+").

(** The loop shared by [min] and [max] (lines 115-130 and 148-163);
    [replace value result] is the test selected by [if constexpr]. *)
Fixpoint replace_loop (fuel : nat) (replace : T -> T -> bool) (result : T)
    (element : option T) (self : IMPL) : outcome (option T * IMPL) :=
  match element with
  | None => Done (Some result, self)
  | Some value =>
      match fuel with
      | O => OutOfFuel
      | S fuel' =>
          let result := if replace value result then value else result in
          let '(element, self) := next self in
          replace_loop fuel' replace result element self
      end
  end.

(** The frame shared by [min] and [max] (lines 105-113 and 132). *)
Definition replace_scan (replace : T -> T -> bool) : terminal IMPL (option T) :=
  fun fuel self =>
    let '(element, self) := next self in
    match element with
    | None => Done (None, self)
    | Some result =>
        let '(element, self) := next self in
        replace_loop fuel replace result element self
    end.

Definition min (ops : concepts.element_ops T) : compiled (terminal IMPL (option T)) :=
  if concepts.has_lth ops || concepts.has_gth ops then
    if concepts.has_lth ops then
      use_operator (concepts.op_lth ops) "<"
        (fun lth => WellFormed (replace_scan (fun value result => lth value result)))
    else
      use_operator (concepts.op_gth ops) ">"
        (fun gth =>
           WellFormed (replace_scan (fun value result => negb (gth value result))))
  else
    IllFormed (static_assert_failed
      "Stream value type doesn't implement operator< or operator>").

Definition max (ops : concepts.element_ops T) : compiled (terminal IMPL (option T)) :=
  if concepts.has_lth ops || concepts.has_gth ops then
    if concepts.has_lth ops then
      use_operator (concepts.op_gth ops) ">"
        (fun gth => WellFormed (replace_scan (fun value result => gth value result)))
    else
      use_operator (concepts.op_lth ops) "<"
        (fun lth =>
           WellFormed (replace_scan (fun value result => negb (lth value result))))
  else
    IllFormed (static_assert_failed
      "Stream value type doesn't implement operator< or operator>").

Fixpoint count_loop (fuel : nat) (result : Z) (element : option T) (self : IMPL)
    : outcome (Z * IMPL) :=
  match element with
  | None => Done (result, self)
  | Some _ =>
      match fuel with
      | O => OutOfFuel
      | S fuel' =>
          let result := size_t_wrap (result + 1) in
          let '(element, self) := next self in
          count_loop fuel' result element self
      end
  end.

Definition count : terminal IMPL Z :=
  fun fuel self =>
    let result := 0%Z in
    let '(element, self) := next self in
    count_loop fuel result element self.

Fixpoint collect_loop {C : Type} (fuel : nat) (insert : C -> T -> C) (result : C)
    (element : option T) (self : IMPL) : outcome (C * IMPL) :=
  match element with
  | None => Done (result, self)
  | Some value =>
      match fuel with
      | O => OutOfFuel
      | S fuel' =>
          let result := insert result value in
          let '(element, self) := next self in
          collect_loop fuel' insert result element self
      end
  end.

Definition collect_with {C : Type} (insert : C -> T -> C) (empty : C) : terminal IMPL C :=
  fun fuel self =>
    let result := empty in
    let '(element, self) := next self in
    collect_loop fuel insert result element self.

Definition collect {C : Type} (tr : concepts.container C T)
  : compiled (terminal IMPL C) :=
  if concepts.is_default_constructible tr
     && (concepts.has_add_assign tr || concepts.has_push_back tr)
  then
    match concepts.default_constructed tr with
    | Some empty =>
        if concepts.has_add_assign tr then
          use_operator (concepts.op_add_assign tr) "+="
            (fun add_assign => WellFormed (collect_with add_assign empty))
        else
          use_operator (concepts.push_back tr) "push_back"
            (fun push_back => WellFormed (collect_with push_back empty))
    | None => IllFormed (constraint_not_satisfied "is_default_constructible")
    end
  else
    IllFormed (constraint_not_satisfied
      "is_default_constructible && (has_add_assign || has_push_back)").

End Members.
End Stream.

(** ** The factory functions *)

(** The return type both factory functions declare (lines 205 and 211). *)
Abbreviation root_stream T := (BasicStream (IteratorStreamable (const_iterator T))).

Inductive iterator_type : Type :=
| const_iterator_type
| const_reverse_iterator_type.

Definition iterator_of (k : iterator_type) (T : Type) : Type :=
  match k with
  | const_iterator_type => const_iterator T
  | const_reverse_iterator_type => const_reverse_iterator T
  end.

Definition iterator_type_eq_dec (a b : iterator_type) : {a = b} + {a <> b}.
Proof. decide equality. Defined.

(** [return e;] in a function whose declared return type is
    [BasicStream<IteratorStreamable<declared>>] while [e] has type
    [BasicStream<IteratorStreamable<actual>>].  The only constructor of a
    stream is the explicit one taking its streamable (line 49), so one
    specialisation converts to another only when both are the same type. *)
Definition return_as {T : Type} (declared actual : iterator_type)
  : BasicStream (IteratorStreamable (iterator_of actual T)) ->
    compiled (BasicStream (IteratorStreamable (iterator_of declared T))) :=
  match iterator_type_eq_dec actual declared with
  | left e =>
      fun stream =>
        WellFormed
          (eq_rect actual
             (fun k => BasicStream (IteratorStreamable (iterator_of k T)))
             stream declared e)
  | right _ => fun _ => IllFormed no_viable_conversion
  end.

Section Factories.
Context {C T : Type} (tr : concepts.container C T).

Definition make_stream (container : C) : compiled (root_stream T) :=
  if concepts.is_const_iterable tr then
    return_as const_iterator_type const_iterator_type
      {| _streamable := {| iter_begin := cbegin tr container;
                           iter_end := cend tr container |} |}
  else IllFormed (constraint_not_satisfied "is_const_iterable").

(** The expression returned by [make_reverse_stream] (line 212). *)
Definition reverse_stream_expression (container : C)
  : BasicStream (IteratorStreamable (const_reverse_iterator T)) :=
  {| _streamable := {| iter_begin := crbegin tr container;
                       iter_end := crend tr container |} |}.

Definition make_reverse_stream (container : C) : compiled (root_stream T) :=
  if concepts.is_const_reverse_iterable tr then
    return_as const_iterator_type const_reverse_iterator_type
      (reverse_stream_expression container)
  else IllFormed (constraint_not_satisfied "is_const_reverse_iterable").

End Factories.

(** ** Observing pulls *)

(** A stage wrapped so that every pull on it is counted. *)
Record Counted (IMPL : Type) : Type := {
  observed : IMPL;
  pulls : nat
}.

Definition Counted_next {IMPL T : Type} `{Streamable IMPL T}
    (self : Counted IMPL) : option T * Counted IMPL :=
  let '(element, inner) := next (observed self) in
  (element, {| observed := inner; pulls := S (pulls self) |}).

#[export] Instance Counted_Streamable {IMPL T : Type} `{Streamable IMPL T}
  : Streamable (Counted IMPL) T := {| next := Counted_next |}.

(** A terminal operation drives the chain until it reports empty when, run
    on the counted stage, it returns after one pull for each element the chain
    holds and one more, the pull that reports empty, and leaves the chain in
    the state that pull leaves. *)
Definition drives_until_empty {IMPL T A : Type} `{Streamable IMPL T}
    (run : Counted IMPL -> outcome (A * Counted IMPL)) (self : IMPL) : Prop :=
  exists (l : list T) self' a,
    drains self l self'
    /\ run {| observed := self; pulls := 0 |}
       = Done (a, {| observed := self'; pulls := length l + 1 |}).

(** ** Orders and extreme elements *)

Record strict_weak_order {T : Type} (before : T -> T -> bool) : Prop := {
  swo_irreflexive : forall a, before a a = false;
  swo_transitive : forall a b c,
      before a b = true -> before b c = true -> before a c = true;
  swo_cotransitive : forall a b c,
      before a b = true -> before a c = true \/ before c b = true
}.

(** [first_extreme before l x]: [x] occurs in [l], no element of [l] comes
    strictly before [x] in the order, and every element pulled earlier than
    this occurrence comes strictly after [x]; so [x] is the first of the
    extreme elements of [l].  With [before := <] this is the first minimal
    element, with [before := >] the first maximal one. *)
Definition first_extreme {T : Type} (before : T -> T -> bool) (l : list T) (x : T)
  : Prop :=
  exists l1 l2,
    l = l1 ++ x :: l2
    /\ (forall y, In y l -> before y x = false)
    /\ (forall y, In y l1 -> before x y = true).

(** [last_extreme after l x]: [x] occurs in [l], it comes strictly after no
    element of [l], and every element pulled later than this occurrence comes
    strictly after [x]; so [x] is the last of the extreme elements of [l].
    With [after := >] this is the last minimal element. *)
Definition last_extreme {T : Type} (after : T -> T -> bool) (l : list T) (x : T)
  : Prop :=
  exists l1 l2,
    l = l1 ++ x :: l2
    /\ (forall y, In y l -> after x y = false)
    /\ (forall y, In y l2 -> after y x = true).

(** ** Sequence containers *)

(** A default-constructed container is empty and the insertion [collect]
    selects appends at the end. *)
Record sequence_container {C T : Type} (tr : concepts.container C T) : Prop := {
  seq_iterable : concepts.is_const_iterable tr = true;
  seq_default : exists empty,
      concepts.default_constructed tr = Some empty
      /\ concepts.elements tr empty = [];
  seq_insertion :
      concepts.has_add_assign tr || concepts.has_push_back tr = true;
  seq_add_assign : forall f c x,
      concepts.op_add_assign tr = Some f ->
      concepts.elements tr (f c x) = concepts.elements tr c ++ [x];
  seq_push_back : forall f c x,
      concepts.push_back tr = Some f ->
      concepts.elements tr (f c x) = concepts.elements tr c ++ [x]
}.

(** ** Element types and containers used in the examples *)

(** [std::vector<T>]. *)
Definition vector (T : Type) : concepts.container (list T) T := {|
  concepts.is_const_iterable := true;
  concepts.is_const_reverse_iterable := true;
  concepts.elements := fun c => c;
  concepts.default_constructed := Some [];
  concepts.op_add_assign := None;
  concepts.push_back := Some (fun c x => c ++ [x])
|}.

(** A container with both insertions, told apart by what they insert:
    [+=] appends the element, [push_back] appends its negation. *)
Definition signed_log : concepts.container (list Z) Z := {|
  concepts.is_const_iterable := true;
  concepts.is_const_reverse_iterable := false;
  concepts.elements := fun c => c;
  concepts.default_constructed := Some [];
  concepts.op_add_assign := Some (fun c x => c ++ [x]);
  concepts.push_back := Some (fun c x => c ++ [(- x)%Z])
|}.

(** A container without [cbegin()/cend()]: it can be filled and not
    traversed. *)
Definition sink : concepts.container (list Z) Z := {|
  concepts.is_const_iterable := false;
  concepts.is_const_reverse_iterable := false;
  concepts.elements := fun c => c;
  concepts.default_constructed := Some [];
  concepts.op_add_assign := None;
  concepts.push_back := Some (fun c x => c ++ [x])
|}.

(** [int]-like elements: [+], [<] and [>]. *)
Definition int_ops : concepts.element_ops Z := {|
  concepts.op_add := Some Z.add;
  concepts.op_lth := Some Z.ltb;
  concepts.op_gth := Some Z.gtb
|}.

(** An element type whose two operators do not agree: both are [<] of the
    integers. *)
Definition backwards_ops : concepts.element_ops Z := {|
  concepts.op_add := None;
  concepts.op_lth := Some Z.ltb;
  concepts.op_gth := Some Z.ltb
|}.

(** A record ordered by its key alone. *)
Record entry : Type := {
  key : Z;
  label : Z
}.

Definition entry_lth (a b : entry) : bool := (key a <? key b)%Z.
Definition entry_gth (a b : entry) : bool := (key a >? key b)%Z.

Definition entry_gth_only : concepts.element_ops entry := {|
  concepts.op_add := None;
  concepts.op_lth := None;
  concepts.op_gth := Some entry_gth
|}.

Definition entry_lth_only : concepts.element_ops entry := {|
  concepts.op_add := None;
  concepts.op_lth := Some entry_lth;
  concepts.op_gth := None
|}.

Definition entry_lth_gth : concepts.element_ops entry := {|
  concepts.op_add := None;
  concepts.op_lth := Some entry_lth;
  concepts.op_gth := Some entry_gth
|}.

Definition entry_of (k l : Z) : entry := {| key := k; label := l |}.

(** The pipeline root over a [std::vector]. *)
Definition vector_stream {T : Type} (c : list T) : root_stream T :=
  {| _streamable := {| iter_begin := cbegin (vector T) c;
                       iter_end := cend (vector T) c |} |}.

(** The same root once its begin cursor has reached the end cursor. *)
Definition vector_stream_end {T : Type} (c : list T) : root_stream T :=
  {| _streamable := {| iter_begin := cend (vector T) c;
                       iter_end := cend (vector T) c |} |}.

(** Running an instantiated terminal operation, when there is one. *)
Definition run_compiled {IMPL A : Type} (op : compiled (nat -> IMPL -> outcome (A * IMPL)))
    (fuel : nat) (self : IMPL) : option (outcome A) :=
  match op with
  | WellFormed run =>
      Some match run fuel self with
           | Done (a, _) => Done a
           | OutOfFuel => OutOfFuel
           end
  | IllFormed _ => None
  end.

(** ** Seeded folds

    What [reduce], [min] and [max] compute on the pulled sequence: the first
    element seeds the result and every later one is folded into it. *)

Definition seeded_fold {T : Type} (function : T -> T -> T) (l : list T) : option T :=
  match l with
  | [] => None
  | seed :: rest => Some (fold_left function rest seed)
  end.

Definition keep_or_replace {T : Type} (replace : T -> T -> bool) (result value : T) : T :=
  if replace value result then value else result.

(** [k] successive pulls on a stage: what each returned, and the stage
    afterwards. *)
Fixpoint pull_many {IMPL T : Type} `{Streamable IMPL T} (k : nat) (self : IMPL)
  : list (option T) * IMPL :=
  match k with
  | O => ([], self)
  | S k' =>
      let '(element, self) := next self in
      let '(elements, self) := pull_many k' self in
      (element :: elements, self)
  end.

(** ** What a result says about the pulled sequence *)

(** [run] returns empty on a chain that yields nothing and the element itself
    on a chain that yields one element. *)
Definition returns_empty_or_only_element {IMPL T : Type} `{Streamable IMPL T}
    (run : IMPL -> outcome (option T * IMPL)) : Prop :=
  (forall self self', drains self [] self' -> run self = Done (None, self'))
  /\ (forall self self' x,
        drains self [x] self' -> run self = Done (Some x, self')).

(** [run] returns one of the pulled elements, and empty only on a chain that
    yields nothing. *)
Definition returns_pulled_element {IMPL T : Type} `{Streamable IMPL T}
    (run : Stream.terminal IMPL (option T)) : Prop :=
  forall self self' l fuel,
    drains self l self' ->
    length l <= S fuel ->
    exists result,
      run fuel self = Done (result, self')
      /\ match result with
         | Some x => In x l
         | None => l = []
         end.

(** [run] sees nothing on the stage [self']: it returns [nothing] and leaves
    the stage as it is, whatever the fuel. *)
Definition sees_nothing {IMPL A : Type} (run : Stream.terminal IMPL A)
    (self' : IMPL) (nothing : A) : Prop :=
  forall later, run later self' = Done (nothing, self').

(** * Properties *)

(** ** Draining a chain *)

Section DrainFacts.
Context {IMPL T : Type} `{Streamable IMPL T}.

Lemma drains_deterministic : forall (self : IMPL) l1 s1,
  drains self l1 s1 -> forall l2 s2, drains self l2 s2 -> l1 = l2 /\ s1 = s2.
Proof.
  induction 1 as [self self' Hn | self value self1 l self' Hn Hd IH];
    intros l2 s2 Hd2; inversion Hd2 as [? ? Hn2 | ? v2 t2 l2' ? Hn2 Hd2']; subst;
    rewrite Hn in Hn2; inversion Hn2; subst.
  - split; reflexivity.
  - destruct (IH _ _ Hd2'); subst; split; reflexivity.
Qed.

(** Every counted pull on the wrapped stage is one pull on the stage. *)
Lemma drains_counted : forall (self : IMPL) l self',
  drains self l self' ->
  forall n,
    drains {| observed := self; pulls := n |} l
           {| observed := self'; pulls := n + length l + 1 |}.
Proof.
  induction 1 as [self self' Hn | self value self1 l self' Hn Hd IH]; intro n.
  - apply drains_empty. simpl. unfold Counted_next. simpl. rewrite Hn.
    do 2 f_equal. lia.
  - apply drains_yield with (self1 := {| observed := self1; pulls := S n |}).
    + simpl. unfold Counted_next. simpl. rewrite Hn. reflexivity.
    + replace (n + length (value :: l) + 1) with (S n + length l + 1)
        by (simpl; lia).
      apply IH.
Qed.

(** The loops of the terminal operations, entered after a pull on [self]. *)

Lemma reduce_loop_drains : forall (self : IMPL) l self',
  drains self l self' ->
  forall fuel function acc,
    length l <= fuel ->
    (let '(next_, self1) := next self in
     Stream.reduce_loop fuel function acc next_ self1)
    = Done (Some (fold_left function l acc), self').
Proof.
  induction 1 as [self self' Hn | self value self1 l self' Hn Hd IH];
    intros fuel function acc Hfuel; rewrite Hn.
  - destruct fuel; reflexivity.
  - destruct fuel as [| fuel]; [simpl in Hfuel; lia |].
    simpl. apply IH. simpl in Hfuel. lia.
Qed.

Lemma replace_loop_reduce_loop : forall fuel replace result element (self : IMPL),
  Stream.replace_loop fuel replace result element self
  = Stream.reduce_loop fuel
      (fun result value => if replace value result then value else result)
      result element self.
Proof.
  induction fuel as [| fuel IH]; intros replace result element self;
    destruct element as [value |]; simpl; try reflexivity.
  destruct (next self) as [element' self1]. apply IH.
Qed.

Lemma count_loop_drains : forall (self : IMPL) l self',
  drains self l self' ->
  forall fuel result,
    length l <= fuel ->
    (0 <= result < SIZE_MODULUS)%Z ->
    (let '(element, self1) := next self in
     Stream.count_loop fuel result element self1)
    = Done (size_t_wrap (result + Z.of_nat (length l)), self').
Proof.
  induction 1 as [self self' Hn | self value self1 l self' Hn Hd IH];
    intros fuel result Hfuel Hresult; rewrite Hn.
  - assert (Hwrap : size_t_wrap (result + Z.of_nat (@length T [])) = result).
    { unfold size_t_wrap. simpl. rewrite Z.add_0_r.
      apply Z.mod_small. exact Hresult. }
    rewrite Hwrap. destruct fuel; reflexivity.
  - destruct fuel as [| fuel]; [simpl in Hfuel; lia |].
    simpl Stream.count_loop.
    rewrite IH.
    + f_equal. f_equal. unfold size_t_wrap.
      rewrite Zplus_mod_idemp_l. f_equal. simpl length. lia.
    + simpl in Hfuel. lia.
    + unfold size_t_wrap. apply Z.mod_pos_bound. reflexivity.
Qed.

Lemma collect_loop_drains : forall (C : Type) (self : IMPL) l self',
  drains self l self' ->
  forall fuel (insert : C -> T -> C) result,
    length l <= fuel ->
    (let '(element, self1) := next self in
     Stream.collect_loop fuel insert result element self1)
    = Done (fold_left insert l result, self').
Proof.
  intros C.
  induction 1 as [self self' Hn | self value self1 l self' Hn Hd IH];
    intros fuel insert result Hfuel; rewrite Hn.
  - destruct fuel; reflexivity.
  - destruct fuel as [| fuel]; [simpl in Hfuel; lia |].
    simpl. apply IH. simpl in Hfuel. lia.
Qed.

End DrainFacts.

(** ** What the terminal operations return *)

Section TerminalFacts.
Context {IMPL T : Type} `{Streamable IMPL T}.

Lemma reduce_drains : forall (self : IMPL) l self' function fuel,
  drains self l self' ->
  length l <= S fuel ->
  Stream.reduce function fuel self = Done (seeded_fold function l, self').
Proof.
  intros self l self' function fuel Hd Hfuel. unfold Stream.reduce.
  inversion Hd as [? ? Hn | ? seed self1 rest ? Hn Hrest]; subst; rewrite Hn.
  - reflexivity.
  - simpl seeded_fold.
    apply (reduce_loop_drains Hrest). simpl in Hfuel. lia.
Qed.

Lemma replace_scan_drains : forall (self : IMPL) l self' replace fuel,
  drains self l self' ->
  length l <= S fuel ->
  Stream.replace_scan replace fuel self
  = Done (seeded_fold (keep_or_replace replace) l, self').
Proof.
  intros self l self' replace fuel Hd Hfuel. unfold Stream.replace_scan.
  inversion Hd as [? ? Hn | ? seed self1 rest ? Hn Hrest]; subst; rewrite Hn.
  - reflexivity.
  - simpl seeded_fold.
    pose proof (reduce_loop_drains Hrest (fuel := fuel)
                  (keep_or_replace replace) seed) as Hloop.
    destruct (next self1) as [element self2].
    rewrite replace_loop_reduce_loop. apply Hloop. simpl in Hfuel. lia.
Qed.

Lemma count_drains : forall (self : IMPL) (l : list T) self' fuel,
  drains self l self' ->
  length l <= fuel ->
  Stream.count fuel self = Done (size_t_wrap (Z.of_nat (length l)), self').
Proof.
  intros self l self' fuel Hd Hfuel. unfold Stream.count.
  apply (count_loop_drains Hd (fuel := fuel) (result := 0%Z)); [exact Hfuel |].
  split; [lia | reflexivity].
Qed.

Lemma collect_with_drains : forall (C : Type) (self : IMPL) l self'
    (insert : C -> T -> C) empty fuel,
  drains self l self' ->
  length l <= fuel ->
  Stream.collect_with insert empty fuel self = Done (fold_left insert l empty, self').
Proof.
  intros C self l self' insert empty fuel Hd Hfuel. unfold Stream.collect_with.
  apply (collect_loop_drains Hd); exact Hfuel.
Qed.

(** The instantiations of [sum], [min], [max] and [collect], when there is
    one, are seeded folds. *)

Lemma sum_well_formed : forall ops (run : Stream.terminal IMPL (option T)),
  Stream.sum ops = WellFormed run ->
  exists add, concepts.op_add ops = Some add /\ run = Stream.reduce (fun a b => add a b).
Proof.
  intros ops run. unfold Stream.sum, concepts.has_add.
  destruct (concepts.op_add ops) as [add |]; simpl; intro Hrun;
    [| discriminate].
  exists add. split; [reflexivity | congruence].
Qed.

Lemma min_well_formed : forall ops (run : Stream.terminal IMPL (option T)),
  Stream.min ops = WellFormed run ->
  exists replace,
    run = Stream.replace_scan replace
    /\ match concepts.op_lth ops, concepts.op_gth ops with
       | Some lth, _ => replace = (fun value result => lth value result)
       | None, Some gth => replace = (fun value result => negb (gth value result))
       | None, None => False
       end.
Proof.
  intros ops run. unfold Stream.min, concepts.has_lth, concepts.has_gth.
  destruct (concepts.op_lth ops) as [lth |];
    destruct (concepts.op_gth ops) as [gth |]; simpl; intro Hrun;
    try discriminate; inversion Hrun; eexists; split; reflexivity.
Qed.

Lemma max_well_formed : forall ops (run : Stream.terminal IMPL (option T)),
  Stream.max ops = WellFormed run ->
  exists gth,
    concepts.op_gth ops = Some gth
    /\ run = Stream.replace_scan (fun value result => gth value result).
Proof.
  intros ops run. unfold Stream.max, concepts.has_lth, concepts.has_gth.
  destruct (concepts.op_lth ops) as [lth |];
    destruct (concepts.op_gth ops) as [gth |]; simpl; intro Hrun;
    try discriminate; inversion Hrun; eexists; split; reflexivity.
Qed.

Lemma collect_well_formed : forall (C : Type) (tr : concepts.container C T)
    (run : Stream.terminal IMPL C),
  Stream.collect tr = WellFormed run ->
  exists insert empty,
    concepts.default_constructed tr = Some empty
    /\ run = Stream.collect_with insert empty
    /\ match concepts.op_add_assign tr with
       | Some add_assign => insert = add_assign
       | None => concepts.push_back tr = Some insert
       end.
Proof.
  intros C tr run.
  unfold Stream.collect, concepts.is_default_constructible,
    concepts.has_add_assign, concepts.has_push_back.
  destruct (concepts.default_constructed tr) as [empty |];
    destruct (concepts.op_add_assign tr) as [add_assign |];
    destruct (concepts.push_back tr) as [push_back |]; simpl; intro Hrun;
    try discriminate; inversion Hrun; do 2 eexists; repeat split; reflexivity.
Qed.

End TerminalFacts.

(** ** The cursor-pair source *)

Section SourceFacts.
Context {T : Type}.

Lemma skipn_nth_error : forall (l : list T) p x,
  nth_error l p = Some x -> skipn p l = x :: skipn (S p) l.
Proof.
  induction l as [| y l IH]; intros [| p] x Hx; simpl in *; try discriminate.
  - congruence.
  - apply IH. exact Hx.
Qed.

Lemma firstn_nth_error : forall (l : list T) p x,
  nth_error l p = Some x -> firstn (S p) l = firstn p l ++ [x].
Proof.
  induction l as [| y l IH]; intros [| p] x Hx; simpl in *; try discriminate.
  - congruence.
  - f_equal. apply IH. exact Hx.
Qed.

Lemma nth_error_in_range : forall (l : list T) p,
  p < length l -> exists x, nth_error l p = Some x.
Proof.
  intros l p Hp. destruct (nth_error l p) as [x |] eqn:Hx.
  - exists x. reflexivity.
  - apply nth_error_None in Hx. lia.
Qed.

(** A forward cursor pair at position [p] yields the elements from [p] on. *)
Lemma forward_range_drains : forall (l : list T) n p,
  p + n = length l ->
  drains {| iter_begin := {| sequence := l; position := p |};
            iter_end := {| sequence := l; position := length l |} |}
         (skipn p l)
         {| iter_begin := {| sequence := l; position := length l |};
            iter_end := {| sequence := l; position := length l |} |}.
Proof.
  intros l n. induction n as [| n IH]; intros p Hp.
  - assert (p = length l) by lia. subst p.
    rewrite skipn_all. apply drains_empty.
    simpl. unfold IteratorStreamable_next. simpl.
    rewrite Nat.eqb_refl. reflexivity.
  - destruct (@nth_error_in_range l p) as [x Hx]; [lia |].
    rewrite (skipn_nth_error _ _ Hx).
    eapply drains_yield; [| apply IH; lia].
    simpl. unfold IteratorStreamable_next. simpl.
    replace (p =? length l) with false by (symmetry; apply Nat.eqb_neq; lia).
    rewrite Hx. reflexivity.
Qed.

(** A reverse cursor pair whose forward cursor stands at [p] yields the
    elements before [p], last first. *)
Lemma reverse_range_drains : forall (l : list T) p,
  p <= length l ->
  drains {| iter_begin := {| current := {| sequence := l; position := p |} |};
            iter_end := {| current := {| sequence := l; position := 0 |} |} |}
         (rev (firstn p l))
         {| iter_begin := {| current := {| sequence := l; position := 0 |} |};
            iter_end := {| current := {| sequence := l; position := 0 |} |} |}.
Proof.
  intros l p. induction p as [| p IH]; intro Hp.
  - apply drains_empty. reflexivity.
  - destruct (@nth_error_in_range l p) as [x Hx]; [lia |].
    rewrite (firstn_nth_error _ _ Hx), rev_unit.
    eapply drains_yield; [| apply IH; lia].
    simpl. unfold IteratorStreamable_next. simpl. rewrite Hx. reflexivity.
Qed.

End SourceFacts.

Lemma basic_stream_drains : forall (S T : Type) `{Streamable S T}
    (streamable : S) (l : list T) streamable',
  drains streamable l streamable' ->
  drains {| _streamable := streamable |} l {| _streamable := streamable' |}.
Proof.
  intros S T H streamable l streamable'.
  induction 1 as [self self' Hn | self value self1 l self' Hn Hd IH].
  - apply drains_empty. simpl. unfold BasicStream_next. simpl. rewrite Hn.
    reflexivity.
  - eapply drains_yield; [| exact IH].
    simpl. unfold BasicStream_next. simpl. rewrite Hn. reflexivity.
Qed.

(** The pipeline root over a vector yields the vector. *)
Lemma vector_stream_drains : forall (T : Type) (c : list T),
  drains (vector_stream c) c
         {| _streamable := {| iter_begin := cend (vector T) c;
                              iter_end := cend (vector T) c |} |}.
Proof.
  intros T c. unfold vector_stream. apply basic_stream_drains.
  apply (forward_range_drains c (length c) 0). reflexivity.
Qed.

(** ** The limit stage *)

Section LimitFacts.
Context {IMPL T : Type} `{Streamable IMPL T}.

Lemma limit_drains : forall (self : IMPL) (l : list T) self',
  drains self l self' ->
  forall max_count count,
    (0 <= count <= max_count)%Z ->
    (max_count < SIZE_MODULUS)%Z ->
    exists final,
      drains {| limit_upstream := self;
                limit_max_count := max_count;
                limit_count := count |}
             (firstn (Z.to_nat (max_count - count)) l)
             final.
Proof.
  induction 1 as [self self' Hn | self value self1 l self' Hn Hd IH];
    intros max_count count Hcount Hmax.
  - rewrite firstn_nil.
    destruct (max_count <=? count)%Z eqn:Hreached;
      eexists; apply drains_empty;
      simpl; unfold LimitingStream_next; simpl; rewrite Hreached.
    + reflexivity.
    + rewrite Hn. reflexivity.
  - destruct (max_count <=? count)%Z eqn:Hreached.
    + apply Z.leb_le in Hreached.
      replace (Z.to_nat (max_count - count)) with 0 by lia.
      eexists. apply drains_empty.
      simpl. unfold LimitingStream_next. simpl.
      replace (max_count <=? count)%Z with true
        by (symmetry; apply Z.leb_le; lia).
      reflexivity.
    + apply Z.leb_gt in Hreached.
      destruct (IH max_count (count + 1)%Z) as [final Hfinal]; [lia | lia |].
      replace (Z.to_nat (max_count - count))
        with (S (Z.to_nat (max_count - (count + 1)))) by lia.
      exists final. simpl firstn.
      eapply drains_yield; [| exact Hfinal].
      simpl. unfold LimitingStream_next. simpl.
      replace (max_count <=? count)%Z with false
        by (symmetry; apply Z.leb_gt; lia).
      rewrite Hn. unfold size_t_wrap.
      rewrite Z.mod_small by lia. reflexivity.
Qed.

Lemma limit_reached_pull : forall (stage : LimitingStream IMPL),
  limit_count stage = limit_max_count stage ->
  next (T := T) stage = (None, stage).
Proof.
  intros stage Hreached. simpl. unfold LimitingStream_next.
  rewrite Hreached, Z.leb_refl. reflexivity.
Qed.

End LimitFacts.

(** ** Strict replacement keeps the first extreme element *)

Section ExtremeFacts.
Context {T : Type} (before : T -> T -> bool).
Hypothesis before_order : strict_weak_order before.

Lemma strict_replace_first_extreme : forall (rest : list T) (seed : T),
  first_extreme before (seed :: rest)
    (fold_left (keep_or_replace (fun value result => before value result)) rest seed).
Proof.
  destruct before_order as [Hirr Htrans Hcotrans].
  induction rest as [| value rest IH] using rev_ind; intro seed.
  - exists [], []. simpl. repeat split.
    + intros y [Hy | []]. subst y. apply Hirr.
    + intros y [].
  - rewrite fold_left_app. simpl fold_left.
    destruct (IH seed) as (l1 & l2 & Hsplit & Hextreme & Hearlier).
    set (result := fold_left
                     (keep_or_replace (fun value result => before value result))
                     rest seed) in *.
    unfold keep_or_replace at 1.
    destruct (before value result) eqn:Hvalue.
    + exists (seed :: rest), []. repeat split.
      * intros y Hy. change (seed :: rest ++ [value]) with ((seed :: rest) ++ [value]) in Hy.
        apply in_app_or in Hy. destruct Hy as [Hy | [Hy | []]].
        -- destruct (before y value) eqn:Hyv; [| reflexivity].
           pose proof (Htrans _ _ _ Hyv Hvalue) as Hyr.
           rewrite (Hextreme y Hy) in Hyr. discriminate.
        -- subst y. apply Hirr.
      * intros y Hy.
        destruct (Hcotrans _ _ y Hvalue) as [Hvy | Hyr]; [exact Hvy |].
        rewrite (Hextreme y Hy) in Hyr. discriminate.
    + exists l1, (l2 ++ [value]). repeat split.
      * change (seed :: rest ++ [value]) with ((seed :: rest) ++ [value]).
        rewrite Hsplit, <- app_assoc. reflexivity.
      * intros y Hy. change (seed :: rest ++ [value]) with ((seed :: rest) ++ [value]) in Hy.
        apply in_app_or in Hy. destruct Hy as [Hy | [Hy | []]].
        -- apply Hextreme. exact Hy.
        -- subst y. exact Hvalue.
      * exact Hearlier.
Qed.

(** Replacement on "not after" keeps the last extreme element: the test of
    the fallback branch of [min], with [before] read as [operator>]. *)
Lemma lax_replace_last_extreme : forall (rest : list T) (seed : T),
  last_extreme before (seed :: rest)
    (fold_left (keep_or_replace (fun value result => negb (before value result)))
       rest seed).
Proof.
  destruct before_order as [Hirr Htrans Hcotrans].
  induction rest as [| value rest IH] using rev_ind; intro seed.
  - exists [], []. simpl. repeat split.
    + intros y [Hy | []]. subst y. apply Hirr.
    + intros y [].
  - rewrite fold_left_app. simpl fold_left.
    destruct (IH seed) as (l1 & l2 & Hsplit & Hextreme & Hlater).
    set (result := fold_left
                     (keep_or_replace
                        (fun value result => negb (before value result)))
                     rest seed) in *.
    unfold keep_or_replace at 1.
    destruct (before value result) eqn:Hvalue; simpl.
    + exists l1, (l2 ++ [value]). repeat split.
      * change (seed :: rest ++ [value]) with ((seed :: rest) ++ [value]).
        rewrite Hsplit, <- app_assoc. reflexivity.
      * intros y Hy.
        change (seed :: rest ++ [value]) with ((seed :: rest) ++ [value]) in Hy.
        apply in_app_or in Hy. destruct Hy as [Hy | [Hy | []]].
        -- apply Hextreme. exact Hy.
        -- subst y. destruct (before result value) eqn:Hback; [| reflexivity].
           pose proof (Htrans _ _ _ Hback Hvalue) as Hloop.
           rewrite Hirr in Hloop. discriminate.
      * intros y Hy. apply in_app_or in Hy. destruct Hy as [Hy | [Hy | []]].
        -- apply Hlater. exact Hy.
        -- subst y. exact Hvalue.
    + exists (seed :: rest), []. repeat split.
      * intros y Hy.
        change (seed :: rest ++ [value]) with ((seed :: rest) ++ [value]) in Hy.
        apply in_app_or in Hy. destruct Hy as [Hy | [Hy | []]].
        -- destruct (before value y) eqn:Hvy; [| reflexivity].
           destruct (Hcotrans _ _ result Hvy) as [Hvr | Hry].
           ++ rewrite Hvalue in Hvr. discriminate.
           ++ rewrite (Hextreme y Hy) in Hry. discriminate.
        -- subst y. apply Hirr.
      * intros y [].
Qed.

End ExtremeFacts.

Lemma converse_strict_weak_order : forall (T : Type) (before : T -> T -> bool),
  strict_weak_order before -> strict_weak_order (fun a b => before b a).
Proof.
  intros T before [Hirr Htrans Hcotrans]. split.
  - intro a. apply Hirr.
  - intros a b c Hab Hbc. exact (Htrans _ _ _ Hbc Hab).
  - intros a b c Hab. destruct (Hcotrans _ _ c Hab) as [Hbc | Hca].
    + right. exact Hbc.
    + left. exact Hca.
Qed.

Lemma fold_left_pointwise : forall (T : Type) (f g : T -> T -> T),
  (forall result value, f result value = g result value) ->
  forall l seed, fold_left f l seed = fold_left g l seed.
Proof.
  intros T f g Hfg. induction l as [| value l IH]; intro seed; simpl.
  - reflexivity.
  - rewrite Hfg. apply IH.
Qed.

Lemma Z_ltb_strict_weak_order : strict_weak_order Z.ltb.
Proof.
  split.
  - intro a. apply Z.ltb_irrefl.
  - intros a b c Hab Hbc. apply Z.ltb_lt in Hab, Hbc. apply Z.ltb_lt. lia.
  - intros a b c Hab. apply Z.ltb_lt in Hab.
    destruct (Z.ltb a c) eqn:Hac; [left; reflexivity |].
    right. apply Z.ltb_ge in Hac. apply Z.ltb_lt. lia.
Qed.

Lemma entry_lth_strict_weak_order : strict_weak_order entry_lth.
Proof.
  unfold entry_lth. split.
  - intro a. apply Z.ltb_irrefl.
  - intros a b c Hab Hbc. apply Z.ltb_lt in Hab, Hbc. apply Z.ltb_lt. lia.
  - intros a b c Hab. apply Z.ltb_lt in Hab.
    destruct (key a <? key c)%Z eqn:Hac; [left; reflexivity |].
    right. apply Z.ltb_ge in Hac. apply Z.ltb_lt. lia.
Qed.

Lemma entry_gth_strict_weak_order : strict_weak_order entry_gth.
Proof.
  unfold entry_gth. split.
  - intro a. rewrite Z.gtb_ltb. apply Z.ltb_irrefl.
  - intros a b c. rewrite !Z.gtb_ltb. intros Hab Hbc.
    apply Z.ltb_lt in Hab, Hbc. apply Z.ltb_lt. lia.
  - intros a b c. rewrite !Z.gtb_ltb. intro Hab. apply Z.ltb_lt in Hab.
    destruct (key c <? key a)%Z eqn:Hac; [left; reflexivity |].
    right. apply Z.ltb_ge in Hac. apply Z.ltb_lt. lia.
Qed.

(** ** When the terminal operations are instantiated *)

Section InstantiationFacts.
Context {IMPL T : Type} `{Streamable IMPL T}.

Lemma sum_instantiated : forall ops,
  is_well_formed (Stream.sum (IMPL := IMPL) ops) = concepts.has_add ops
  /\ (concepts.has_add ops = true ->
      exists add,
        concepts.op_add ops = Some add
        /\ Stream.sum (IMPL := IMPL) ops
           = WellFormed (Stream.reduce (fun a b => add a b))).
Proof.
  intro ops. unfold Stream.sum, concepts.has_add.
  destruct (concepts.op_add ops) as [add |]; simpl; split;
    try reflexivity; try discriminate.
  intros _. exists add. split; reflexivity.
Qed.

Lemma min_instantiated : forall ops,
  is_well_formed (Stream.min (IMPL := IMPL) ops)
  = concepts.has_lth ops || concepts.has_gth ops
  /\ (concepts.has_lth ops || concepts.has_gth ops = true ->
      exists replace,
        Stream.min (IMPL := IMPL) ops = WellFormed (Stream.replace_scan replace)).
Proof.
  intro ops. unfold Stream.min, concepts.has_lth, concepts.has_gth.
  destruct (concepts.op_lth ops) as [lth |];
    destruct (concepts.op_gth ops) as [gth |]; simpl; split;
    try reflexivity; try discriminate; intros _; eexists; reflexivity.
Qed.

Lemma max_instantiated : forall ops,
  is_well_formed (Stream.max (IMPL := IMPL) ops)
  = concepts.has_lth ops && concepts.has_gth ops
  /\ (concepts.has_lth ops && concepts.has_gth ops = true ->
      exists gth,
        concepts.op_gth ops = Some gth
        /\ Stream.max (IMPL := IMPL) ops
           = WellFormed (Stream.replace_scan (fun value result => gth value result))).
Proof.
  intro ops. unfold Stream.max, concepts.has_lth, concepts.has_gth.
  destruct (concepts.op_lth ops) as [lth |];
    destruct (concepts.op_gth ops) as [gth |]; simpl; split;
    try reflexivity; try discriminate.
  intros _. exists gth. split; reflexivity.
Qed.

Lemma collect_instantiated : forall (C : Type) (tr : concepts.container C T),
  is_well_formed (Stream.collect (IMPL := IMPL) tr)
  = concepts.is_default_constructible tr
    && (concepts.has_add_assign tr || concepts.has_push_back tr)
  /\ (concepts.is_default_constructible tr
      && (concepts.has_add_assign tr || concepts.has_push_back tr) = true ->
      exists insert empty,
        concepts.default_constructed tr = Some empty
        /\ Stream.collect (IMPL := IMPL) tr
           = WellFormed (Stream.collect_with insert empty)).
Proof.
  intros C tr.
  unfold Stream.collect, concepts.is_default_constructible,
    concepts.has_add_assign, concepts.has_push_back.
  destruct (concepts.default_constructed tr) as [empty |];
    destruct (concepts.op_add_assign tr) as [add_assign |];
    destruct (concepts.push_back tr) as [push_back |]; simpl; split;
    try reflexivity; try discriminate;
    intros _; do 2 eexists; split; reflexivity.
Qed.

End InstantiationFacts.

(** ** The terminal operations on a drained chain *)

Ltac pull_all :=
  repeat (eapply drains_yield; [reflexivity |]);
  apply drains_empty; reflexivity.

(** C4. [reduce(f)] returns empty when the pipeline yields no element;
    otherwise the first pulled element seeds the accumulator and every later
    element is folded into it from the left in pull order, so a pipeline
    yielding [a, b, c] gives [f (f a b) c].  The fuel bounds the number of
    loop iterations; any fuel at least the number of elements after the first
    is enough. *)
Theorem reduce_left_fold :
  forall (IMPL T : Type) `{Streamable IMPL T} (f : T -> T -> T)
         (self self' : IMPL) (l : list T) (fuel : nat),
    drains self l self' ->
    length l <= S fuel ->
    (l = [] -> Stream.reduce f fuel self = Done (None, self'))
    /\ (forall seed rest,
          l = seed :: rest ->
          Stream.reduce f fuel self = Done (Some (fold_left f rest seed), self'))
    /\ (forall a b c,
          l = [a; b; c] ->
          Stream.reduce f fuel self = Done (Some (f (f a b) c), self')).
Proof.
  intros IMPL T H f self self' l fuel Hd Hfuel.
  pose proof (reduce_drains f Hd Hfuel) as Hreduce.
  repeat split; intros; subst l; exact Hreduce.
Qed.

Lemma reduce_left_fold_witness :
  drains (vector_stream [10; 4; 3]) [10; 4; 3] (vector_stream_end [10; 4; 3])
  /\ length [10; 4; 3] <= 3
  /\ Stream.reduce Nat.sub 2 (vector_stream [10; 4; 3])
     = Done (Some (10 - 4 - 3), vector_stream_end [10; 4; 3]).
Proof.
  assert (Hd : drains (vector_stream [10; 4; 3]) [10; 4; 3]
                      (vector_stream_end [10; 4; 3])) by pull_all.
  assert (Hfuel : length [10; 4; 3] <= 3) by (simpl; lia).
  split; [exact Hd |]. split; [exact Hfuel |].
  destruct (reduce_left_fold Nat.sub (fuel := 2) Hd Hfuel) as [_ [_ Habc]].
  apply Habc. reflexivity.
Defined.

(** C8. On an empty pipeline [sum], [min] and [max] return empty, and on a
    pipeline of one element they return that element, whatever the fuel.
    Each of them is instantiated and does so for every element type with the
    operators its body uses: [operator+] for [sum], [operator<] or
    [operator>] for [min], both for [max]. *)
Theorem sum_min_max_empty_and_single :
  forall (IMPL T : Type) `{Streamable IMPL T} (ops : concepts.element_ops T)
         (fuel : nat),
    (concepts.has_add ops = true ->
     exists run : Stream.terminal IMPL (option T),
       Stream.sum ops = WellFormed run
       /\ returns_empty_or_only_element (run fuel))
    /\ (concepts.has_lth ops || concepts.has_gth ops = true ->
        exists run : Stream.terminal IMPL (option T),
          Stream.min ops = WellFormed run
          /\ returns_empty_or_only_element (run fuel))
    /\ (concepts.has_lth ops && concepts.has_gth ops = true ->
        exists run : Stream.terminal IMPL (option T),
          Stream.max ops = WellFormed run
          /\ returns_empty_or_only_element (run fuel))
    /\ (forall run : Stream.terminal IMPL (option T),
          Stream.sum ops = WellFormed run
          \/ Stream.min ops = WellFormed run
          \/ Stream.max ops = WellFormed run ->
          returns_empty_or_only_element (run fuel)).
Proof.
  intros IMPL T H ops fuel.
  assert (Hreduce : forall function : T -> T -> T,
             returns_empty_or_only_element
               (Stream.reduce (IMPL := IMPL) function fuel)).
  { intro function. split.
    - intros self self' Hd. apply (reduce_drains function Hd). simpl. lia.
    - intros self self' x Hd. apply (reduce_drains function Hd). simpl. lia. }
  assert (Hscan : forall replace : T -> T -> bool,
             returns_empty_or_only_element
               (Stream.replace_scan (IMPL := IMPL) replace fuel)).
  { intro replace. split.
    - intros self self' Hd. apply (replace_scan_drains replace Hd). simpl. lia.
    - intros self self' x Hd. apply (replace_scan_drains replace Hd). simpl. lia. }
  split; [| split; [| split]].
  - intro Hadd. destruct (sum_instantiated (IMPL := IMPL) ops) as [_ Hsum].
    destruct (Hsum Hadd) as (add & _ & Hrun).
    eexists. split; [exact Hrun | apply Hreduce].
  - intro Hany. destruct (min_instantiated (IMPL := IMPL) ops) as [_ Hmin].
    destruct (Hmin Hany) as (replace & Hrun).
    eexists. split; [exact Hrun | apply Hscan].
  - intro Hboth. destruct (max_instantiated (IMPL := IMPL) ops) as [_ Hmax].
    destruct (Hmax Hboth) as (gth & _ & Hrun).
    eexists. split; [exact Hrun | apply Hscan].
  - intros run [Hsum | [Hmin | Hmax]].
    + destruct (sum_well_formed _ Hsum) as (add & _ & ->). apply Hreduce.
    + destruct (min_well_formed _ Hmin) as (replace & -> & _). apply Hscan.
    + destruct (max_well_formed _ Hmax) as (gth & _ & ->). apply Hscan.
Qed.

Lemma sum_min_max_empty_and_single_witness :
  concepts.has_add int_ops = true
  /\ concepts.has_lth int_ops || concepts.has_gth int_ops = true
  /\ concepts.has_lth int_ops && concepts.has_gth int_ops = true
  /\ drains (vector_stream (@nil Z)) [] (vector_stream_end [])
  /\ drains (vector_stream [42%Z]) [42%Z] (vector_stream_end [42%Z])
  /\ (exists run,
         Stream.sum int_ops = WellFormed run
         /\ run 0 (vector_stream []) = Done (None, vector_stream_end [])
         /\ run 0 (vector_stream [42%Z])
            = Done (Some 42%Z, vector_stream_end [42%Z]))
  /\ (exists run,
         Stream.min int_ops = WellFormed run
         /\ run 0 (vector_stream []) = Done (None, vector_stream_end [])
         /\ run 0 (vector_stream [42%Z])
            = Done (Some 42%Z, vector_stream_end [42%Z]))
  /\ (exists run,
         Stream.max int_ops = WellFormed run
         /\ run 0 (vector_stream []) = Done (None, vector_stream_end [])
         /\ run 0 (vector_stream [42%Z])
            = Done (Some 42%Z, vector_stream_end [42%Z])).
Proof.
  assert (Hadd : concepts.has_add int_ops = true) by reflexivity.
  assert (Hany : concepts.has_lth int_ops || concepts.has_gth int_ops = true)
    by reflexivity.
  assert (Hboth : concepts.has_lth int_ops && concepts.has_gth int_ops = true)
    by reflexivity.
  assert (Hnone : drains (vector_stream (@nil Z)) [] (vector_stream_end []))
    by pull_all.
  assert (Hone : drains (vector_stream [42%Z]) [42%Z] (vector_stream_end [42%Z]))
    by pull_all.
  destruct (@sum_min_max_empty_and_single (root_stream Z) Z _ int_ops 0)
    as (Hsum & Hmin & Hmax & _).
  destruct (Hsum Hadd) as (sum_run & Hsum_run & Hsum_empty & Hsum_single).
  destruct (Hmin Hany) as (min_run & Hmin_run & Hmin_empty & Hmin_single).
  destruct (Hmax Hboth) as (max_run & Hmax_run & Hmax_empty & Hmax_single).
  split; [exact Hadd |]. split; [exact Hany |]. split; [exact Hboth |].
  split; [exact Hnone |]. split; [exact Hone |].
  split; [| split].
  - exists sum_run. split; [exact Hsum_run |].
    split; [exact (Hsum_empty _ _ Hnone) | exact (Hsum_single _ _ _ Hone)].
  - exists min_run. split; [exact Hmin_run |].
    split; [exact (Hmin_empty _ _ Hnone) | exact (Hmin_single _ _ _ Hone)].
  - exists max_run. split; [exact Hmax_run |].
    split; [exact (Hmax_empty _ _ Hnone) | exact (Hmax_single _ _ _ Hone)].
Defined.

(** C5. [limit(n).count()] over a chain yielding the finite sequence [l] is
    [min(n, length l)], for every [n] a [size_t] can hold; and a limit stage
    whose counter has reached the maximum answers every further pull with
    empty and stays as it is, its upstream included, so the upstream is not
    pulled again. *)
Theorem limit_count_is_min :
  forall (IMPL T : Type) `{Streamable IMPL T} (self self' : IMPL) (l : list T)
         (n : Z),
    drains self l self' ->
    (0 <= n < SIZE_MODULUS)%Z ->
    (exists final,
        forall fuel,
          Nat.min (Z.to_nat n) (length l) <= fuel ->
          Stream.count fuel (Stream.limit self n)
          = Done (Z.min n (Z.of_nat (length l)), final))
    /\ (forall (stage : LimitingStream IMPL) (k : nat),
          limit_count stage = limit_max_count stage ->
          pull_many k stage = (repeat None k, stage)).
Proof.
  intros IMPL T H self self' l n Hd Hn. split.
  - destruct (limit_drains Hd (max_count := n) (count := 0%Z)) as [final Hfinal];
      [lia | lia |].
    rewrite Z.sub_0_r in Hfinal.
    exists final. intros fuel Hfuel.
    unfold Stream.limit.
    rewrite (count_drains (fuel := fuel) Hfinal)
      by (rewrite length_firstn; exact Hfuel).
    rewrite length_firstn. do 2 f_equal.
    unfold size_t_wrap. rewrite Z.mod_small by lia. lia.
  - intros stage k Hreached. induction k as [| k IH].
    + reflexivity.
    + change (pull_many (S k) stage)
        with (let '(element, stage1) := next (T := T) stage in
              let '(elements, stage2) := pull_many k stage1 in
              (element :: elements, stage2)).
      rewrite (limit_reached_pull stage Hreached), IH. reflexivity.
Qed.

Lemma limit_count_is_min_witness :
  drains (vector_stream [5; 3; 8; 1]%Z) [5; 3; 8; 1]%Z
         (vector_stream_end [5; 3; 8; 1]%Z)
  /\ (0 <= 2 < SIZE_MODULUS)%Z
  /\ exists final,
       Stream.count 2 (Stream.limit (vector_stream [5; 3; 8; 1]%Z) 2)
       = Done (2%Z, final).
Proof.
  assert (Hd : drains (vector_stream [5; 3; 8; 1]%Z) [5; 3; 8; 1]%Z
                      (vector_stream_end [5; 3; 8; 1]%Z)) by pull_all.
  assert (Hn : (0 <= 2 < SIZE_MODULUS)%Z) by (split; reflexivity || discriminate).
  split; [exact Hd |]. split; [exact Hn |].
  destruct (limit_count_is_min Hd Hn) as [[final Hcount] _].
  exists final. apply (Hcount 2). simpl. lia.
Defined.

(** C6. For a container that can be traversed and into which [collect]
    inserts at the end, [make_stream(container).collect<C>()] is instantiated
    and returns a container holding the original elements in the original
    order. *)
Theorem make_stream_collect_round_trip :
  forall (C T : Type) (tr : concepts.container C T) (container : C),
    sequence_container tr ->
    exists stream run,
      make_stream tr container = WellFormed stream
      /\ Stream.collect tr = WellFormed run
      /\ forall fuel,
           length (concepts.elements tr container) <= fuel ->
           exists result final,
             run fuel stream = Done (result, final)
             /\ concepts.elements tr result = concepts.elements tr container.
Proof.
  intros C T tr container [Hiter [empty [Hempty Hnil]] Hins Hadd Hpush].
  assert (Hfold : forall insert,
             (forall c x, concepts.elements tr (insert c x)
                          = concepts.elements tr c ++ [x]) ->
             forall l result,
               concepts.elements tr (fold_left insert l result)
               = concepts.elements tr result ++ l).
  { intros insert Happend. induction l as [| x l IH]; intro result; simpl.
    - rewrite app_nil_r. reflexivity.
    - rewrite IH, Happend, <- app_assoc. reflexivity. }
  assert (Hcollect : exists insert,
             Stream.collect (IMPL := root_stream T) tr
             = WellFormed (Stream.collect_with insert empty)
             /\ forall c x, concepts.elements tr (insert c x)
                            = concepts.elements tr c ++ [x]).
  { unfold Stream.collect, concepts.is_default_constructible.
    rewrite Hempty, Hins.
    unfold concepts.has_add_assign, concepts.has_push_back in *.
    destruct (concepts.op_add_assign tr) as [add_assign |] eqn:Ha; simpl.
    - exists add_assign. split; [reflexivity |].
      intros c x. apply Hadd. reflexivity.
    - destruct (concepts.push_back tr) as [push_back |] eqn:Hp; simpl;
        [| simpl in Hins; discriminate].
      exists push_back. split; [reflexivity |].
      intros c x. apply Hpush. reflexivity. }
  destruct Hcollect as (insert & Hrun & Happend).
  unfold make_stream. rewrite Hiter. simpl return_as.
  do 2 eexists. split; [reflexivity |]. split; [exact Hrun |].
  intros fuel Hfuel.
  do 2 eexists. split.
  - apply collect_with_drains; [| exact Hfuel].
    apply basic_stream_drains.
    apply (forward_range_drains (concepts.elements tr container)
             (length (concepts.elements tr container)) 0).
    reflexivity.
  - rewrite (Hfold insert Happend), Hnil. reflexivity.
Qed.

Lemma make_stream_collect_round_trip_witness :
  sequence_container (vector Z)
  /\ exists run final,
       Stream.collect (vector Z) = WellFormed run
       /\ run 4 (vector_stream [5; 3; 8; 1]%Z) = Done ([5; 3; 8; 1]%Z, final).
Proof.
  assert (Hseq : sequence_container (vector Z)).
  { constructor; simpl.
    - reflexivity.
    - exists []. split; reflexivity.
    - reflexivity.
    - intros f c x Hf. discriminate.
    - intros f c x Hf. inversion Hf. reflexivity. }
  split; [exact Hseq |].
  destruct (make_stream_collect_round_trip [5; 3; 8; 1]%Z Hseq)
    as (stream & run & Hstream & Hrun & Hround).
  destruct (Hround 4) as (result & final & Hdone & Helements);
    [simpl; lia |].
  exists run, final. split; [exact Hrun |].
  inversion Hstream; subst stream.
  simpl in Helements. subst result. exact Hdone.
Defined.

Section DriveFacts.
Context {IMPL T : Type} `{Streamable IMPL T}.
Variables (self self' : IMPL) (l : list T).
Hypothesis chain : drains self l self'.

Lemma seeded_fold_drives :
  forall (run : Stream.terminal (Counted IMPL) (option T)) function fuel,
  (forall (stage stage' : Counted IMPL),
      drains stage l stage' ->
      run fuel stage = Done (seeded_fold function l, stage')) ->
  drives_until_empty (run fuel) self.
Proof.
  intros run function fuel Hrun.
  exists l, self', (seeded_fold function l). split; [exact chain |].
  apply Hrun. apply (drains_counted chain 0).
Qed.

End DriveFacts.

(** C7, as amended.  [reduce], [sum], [min], [max], [count] and [collect]
    drive the chain by repeated pulls until it reports empty: on a chain
    holding [l] they make [length l + 1] pulls and leave the chain as the
    empty pull leaves it.  [sum], [min], [max] and [collect] are instantiated
    and do so whenever the element type or container has what their bodies
    use.  [find_first] makes a single pull: it returns the first pulled
    element, or empty when the chain is exhausted at once, and leaves the
    chain as that one pull leaves it.  The operations reach the chain through
    [next] alone, so none restarts it. *)
Theorem terminal_operations_drive_chain :
  forall (IMPL T : Type) `{Streamable IMPL T} (self self' : IMPL) (l : list T)
         (fuel : nat),
    drains self l self' ->
    length l <= fuel ->
    (forall f, drives_until_empty (Stream.reduce f fuel) self)
    /\ (forall ops,
          concepts.has_add ops = true ->
          exists run,
            Stream.sum ops = WellFormed run
            /\ drives_until_empty (run fuel) self)
    /\ (forall ops,
          concepts.has_lth ops || concepts.has_gth ops = true ->
          exists run,
            Stream.min ops = WellFormed run
            /\ drives_until_empty (run fuel) self)
    /\ (forall ops,
          concepts.has_lth ops && concepts.has_gth ops = true ->
          exists run,
            Stream.max ops = WellFormed run
            /\ drives_until_empty (run fuel) self)
    /\ drives_until_empty (Stream.count fuel) self
    /\ (forall (C : Type) (tr : concepts.container C T),
          concepts.is_default_constructible tr
          && (concepts.has_add_assign tr || concepts.has_push_back tr) = true ->
          exists run,
            Stream.collect tr = WellFormed run
            /\ drives_until_empty (run fuel) self)
    /\ (forall ops run,
          Stream.sum ops = WellFormed run
          \/ Stream.min ops = WellFormed run
          \/ Stream.max ops = WellFormed run ->
          drives_until_empty (run fuel) self)
    /\ (forall (C : Type) (tr : concepts.container C T) run,
          Stream.collect tr = WellFormed run -> drives_until_empty (run fuel) self)
    /\ Stream.find_first {| observed := self; pulls := 0 |}
       = (hd_error l, {| observed := snd (next self); pulls := 1 |}).
Proof.
  intros IMPL T H self self' l fuel Hd Hfuel.
  pose proof (drains_counted Hd 0) as Hcounted. simpl in Hcounted.
  assert (Hreduce : forall f : T -> T -> T,
             drives_until_empty (Stream.reduce f fuel) self).
  { intro f. eapply seeded_fold_drives; [exact Hd |].
    intros stage stage' Hstage. apply reduce_drains; [exact Hstage | lia]. }
  assert (Hscan : forall replace : T -> T -> bool,
             drives_until_empty (Stream.replace_scan replace fuel) self).
  { intro replace. eapply seeded_fold_drives; [exact Hd |].
    intros stage stage' Hstage.
    apply replace_scan_drains; [exact Hstage | lia]. }
  assert (Hcollect : forall (C : Type) (insert : C -> T -> C) (empty : C),
             drives_until_empty (Stream.collect_with insert empty fuel) self).
  { intros C insert empty.
    exists l, self', (fold_left insert l empty). split; [exact Hd |].
    apply collect_with_drains; [exact Hcounted | exact Hfuel]. }
  split; [exact Hreduce |].
  split.
  { intros ops Hadd.
    destruct (sum_instantiated (IMPL := Counted IMPL) ops) as [_ Hsum].
    destruct (Hsum Hadd) as (add & _ & Hrun).
    eexists. split; [exact Hrun | apply Hreduce]. }
  split.
  { intros ops Hany.
    destruct (min_instantiated (IMPL := Counted IMPL) ops) as [_ Hmin].
    destruct (Hmin Hany) as (replace & Hrun).
    eexists. split; [exact Hrun | apply Hscan]. }
  split.
  { intros ops Hboth.
    destruct (max_instantiated (IMPL := Counted IMPL) ops) as [_ Hmax].
    destruct (Hmax Hboth) as (gth & _ & Hrun).
    eexists. split; [exact Hrun | apply Hscan]. }
  split.
  { exists l, self', (size_t_wrap (Z.of_nat (length l))). split; [exact Hd |].
    apply count_drains; [exact Hcounted | exact Hfuel]. }
  split.
  { intros C tr Hcan.
    destruct (collect_instantiated (IMPL := Counted IMPL) tr) as [_ Hinst].
    destruct (Hinst Hcan) as (insert & empty & _ & Hrun).
    eexists. split; [exact Hrun | apply Hcollect]. }
  split.
  { intros ops run [Hsum | [Hmin | Hmax]].
    - destruct (sum_well_formed _ Hsum) as (add & _ & ->). apply Hreduce.
    - destruct (min_well_formed _ Hmin) as (replace & -> & _). apply Hscan.
    - destruct (max_well_formed _ Hmax) as (gth & _ & ->). apply Hscan. }
  split.
  { intros C tr run Hrun.
    destruct (collect_well_formed _ Hrun) as (insert & empty & _ & -> & _).
    apply Hcollect. }
  unfold Stream.find_first. simpl. unfold Counted_next. simpl.
  inversion Hd as [? ? Hn | ? value self1 rest ? Hn Hrest]; subst;
    rewrite Hn; reflexivity.
Qed.

Lemma terminal_operations_drive_chain_witness :
  drains (vector_stream [5; 3; 8; 1]%Z) [5; 3; 8; 1]%Z
         (vector_stream_end [5; 3; 8; 1]%Z)
  /\ length [5; 3; 8; 1]%Z <= 4
  /\ concepts.has_add int_ops = true
  /\ concepts.has_lth int_ops || concepts.has_gth int_ops = true
  /\ concepts.has_lth int_ops && concepts.has_gth int_ops = true
  /\ concepts.is_default_constructible (vector Z)
     && (concepts.has_add_assign (vector Z) || concepts.has_push_back (vector Z))
     = true
  /\ drives_until_empty (Stream.reduce Z.add 4) (vector_stream [5; 3; 8; 1]%Z)
  /\ (exists run,
         Stream.sum int_ops = WellFormed run
         /\ drives_until_empty (run 4) (vector_stream [5; 3; 8; 1]%Z))
  /\ (exists run,
         Stream.min int_ops = WellFormed run
         /\ drives_until_empty (run 4) (vector_stream [5; 3; 8; 1]%Z))
  /\ (exists run,
         Stream.max int_ops = WellFormed run
         /\ drives_until_empty (run 4) (vector_stream [5; 3; 8; 1]%Z))
  /\ drives_until_empty (Stream.count 4) (vector_stream [5; 3; 8; 1]%Z)
  /\ (exists run,
         Stream.collect (vector Z) = WellFormed run
         /\ drives_until_empty (run 4) (vector_stream [5; 3; 8; 1]%Z))
  /\ Stream.find_first
       {| observed := vector_stream [5; 3; 8; 1]%Z; pulls := 0 |}
     = (Some 5%Z,
        {| observed := snd (next (vector_stream [5; 3; 8; 1]%Z)); pulls := 1 |}).
Proof.
  assert (Hd : drains (vector_stream [5; 3; 8; 1]%Z) [5; 3; 8; 1]%Z
                      (vector_stream_end [5; 3; 8; 1]%Z)) by pull_all.
  assert (Hfuel : length [5; 3; 8; 1]%Z <= 4) by (simpl; lia).
  assert (Hadd : concepts.has_add int_ops = true) by reflexivity.
  assert (Hany : concepts.has_lth int_ops || concepts.has_gth int_ops = true)
    by reflexivity.
  assert (Hboth : concepts.has_lth int_ops && concepts.has_gth int_ops = true)
    by reflexivity.
  assert (Hcan : concepts.is_default_constructible (vector Z)
                 && (concepts.has_add_assign (vector Z)
                     || concepts.has_push_back (vector Z)) = true)
    by reflexivity.
  destruct (terminal_operations_drive_chain Hd Hfuel)
    as (Hreduce & Hsum & Hmin & Hmax & Hcount & Hcollect & _ & _ & Hfirst).
  split; [exact Hd |]. split; [exact Hfuel |]. split; [exact Hadd |].
  split; [exact Hany |]. split; [exact Hboth |]. split; [exact Hcan |].
  split; [exact (Hreduce Z.add) |].
  split; [exact (Hsum int_ops Hadd) |].
  split; [exact (Hmin int_ops Hany) |].
  split; [exact (Hmax int_ops Hboth) |].
  split; [exact Hcount |].
  split; [exact (Hcollect _ (vector Z) Hcan) | exact Hfirst].
Defined.

(** C7, as stated, fails for [find_first]: on a chain holding two elements it
    pulls once and returns, so the chain is not driven until it reports
    empty. *)
Lemma find_first_stops_after_one_pull :
  ~ drives_until_empty (fun self => Done (Stream.find_first self))
      (vector_stream [1; 2]).
Proof.
  intros (l & self' & a & Hd & Hrun).
  inversion Hrun as [[Ha Hself Hpulls]].
  destruct l as [| x l]; [| simpl in Hpulls; lia].
  inversion Hd as [? ? Hn |]; subst. discriminate Hn.
Qed.



(** ** Where the code departs from its description *)

(** C1.  Over an element type with [operator>] alone, [min] tests
    [!(value > result)], which holds for an element equal to the running
    result: of two entries with the same key the second replaces the first,
    although the first is the first minimal element.  With [operator<]
    available the same pipeline gives the first entry.  In general the
    fallback keeps the last minimal element ([lax_replace_last_extreme]). *)
Theorem min_gth_only_replaces_on_tie :
  run_compiled (Stream.min entry_gth_only) 1
    (vector_stream [entry_of 1 10; entry_of 1 20])
  = Some (Done (Some (entry_of 1 20)))
  /\ first_extreme (fun a b => entry_gth b a)
       [entry_of 1 10; entry_of 1 20] (entry_of 1 10)
  /\ run_compiled (Stream.min entry_lth_gth) 1
       (vector_stream [entry_of 1 10; entry_of 1 20])
     = Some (Done (Some (entry_of 1 10))).
Proof.
  split; [reflexivity |]. split; [| reflexivity].
  exists [], [entry_of 1 20]. repeat split.
  - intros y [Hy | [Hy | []]]; subst y; reflexivity.
  - intros y [].
Qed.

(** C2.  [max] is instantiated only for element types that provide both
    operators: with [operator<] available it calls [operator>], and otherwise
    it calls [operator<].  For a type with exactly one of them the
    [static_assert] passes and the selected branch then names the operator the
    type lacks; [min] is instantiated for both such types. *)
Theorem max_single_operator_ill_formed :
  (forall (IMPL T : Type) `{Streamable IMPL T} (ops : concepts.element_ops T),
      is_well_formed (Stream.max (IMPL := IMPL) ops)
      = concepts.has_lth ops && concepts.has_gth ops)
  /\ Stream.max (IMPL := root_stream entry) entry_lth_only
     = IllFormed (no_match_for_operator ">")
  /\ Stream.max (IMPL := root_stream entry) entry_gth_only
     = IllFormed (no_match_for_operator "<")
  /\ run_compiled (Stream.max entry_lth_only) 1
       (vector_stream [entry_of 1 10; entry_of 2 20]) = None
  /\ run_compiled (Stream.max entry_gth_only) 1
       (vector_stream [entry_of 1 10; entry_of 2 20]) = None
  /\ run_compiled (Stream.min entry_lth_only) 1
       (vector_stream [entry_of 1 10; entry_of 2 20])
     = Some (Done (Some (entry_of 1 10)))
  /\ run_compiled (Stream.min entry_gth_only) 1
       (vector_stream [entry_of 1 10; entry_of 2 20])
     = Some (Done (Some (entry_of 1 10))).
Proof.
  repeat split; try reflexivity.
  intros IMPL T H ops. unfold Stream.max, concepts.has_lth, concepts.has_gth.
  destruct (concepts.op_lth ops), (concepts.op_gth ops); reflexivity.
Qed.

(** C3.  The [requires] clause of [filter] asks for a callable convertible to
    [std::function<void(T&)>], not to the shape [T -> bool].  A predicate
    [bool(T&&)] has the shape and the call is rejected; a callable [void(T&)]
    does not have the shape and satisfies the clause. *)
Theorem filter_requires_is_not_predicate_shape :
  forall (IMPL F : Type) (self : IMPL) (f : F),
    (callable.is_convertible
       {| callable.sig_result := callable.returns_bool;
          callable.sig_parameter := callable.rvalue_ref |}
       callable.predicate_shape = true
     /\ is_well_formed
          (Stream.filter
             {| callable.sig_result := callable.returns_bool;
                callable.sig_parameter := callable.rvalue_ref |}
             self f) = false)
    /\ (callable.is_convertible
          {| callable.sig_result := callable.returns_void;
             callable.sig_parameter := callable.lvalue_ref |}
          callable.predicate_shape = false
        /\ Stream.filter_requires
             {| callable.sig_result := callable.returns_void;
                callable.sig_parameter := callable.lvalue_ref |} = true).
Proof.
  intros IMPL F self f. repeat split; reflexivity.
Qed.

(** C9.  [make_reverse_stream] declares the stream type over
    [const_iterator] and returns a stream over the reverse cursors, a
    different type with no conversion between the two: the function is
    ill-formed for every container.  The stream its body builds would yield
    the elements in reverse order. *)
Theorem make_reverse_stream_ill_formed :
  (forall (C T : Type) (tr : concepts.container C T) (container : C),
      is_well_formed (make_reverse_stream tr container) = false)
  /\ make_reverse_stream (vector Z) [1; 2; 3]%Z = IllFormed no_viable_conversion
  /\ (forall (C T : Type) (tr : concepts.container C T) (container : C),
         exists final,
           drains (reverse_stream_expression tr container)
                  (rev (concepts.elements tr container)) final).
Proof.
  repeat split.
  - intros C T tr container. unfold make_reverse_stream.
    destruct (concepts.is_const_reverse_iterable tr); reflexivity.
  - intros C T tr container. eexists.
    unfold reverse_stream_expression. apply basic_stream_drains.
    pose proof (reverse_range_drains (concepts.elements tr container)
                  (le_n (length (concepts.elements tr container)))) as Hd.
    rewrite firstn_all in Hd. exact Hd.
Qed.

(** ** The scenarios of the specification *)

Example scenario_sum :
  run_compiled (Stream.sum int_ops) 3 (vector_stream [5; 3; 8; 1]%Z)
  = Some (Done (Some 17%Z)).
Proof. reflexivity. Qed.

Example scenario_min :
  run_compiled (Stream.min int_ops) 3 (vector_stream [5; 3; 8; 1]%Z)
  = Some (Done (Some 1%Z)).
Proof. reflexivity. Qed.

Example scenario_max :
  run_compiled (Stream.max int_ops) 3 (vector_stream [5; 3; 8; 1]%Z)
  = Some (Done (Some 8%Z)).
Proof. reflexivity. Qed.

Example scenario_limit_collect :
  run_compiled (Stream.collect (vector Z)) 2
    (Stream.limit (vector_stream [5; 3; 8; 1]%Z) 2)
  = Some (Done [5; 3]%Z).
Proof. reflexivity. Qed.

Example scenario_empty_source :
  fst (Stream.find_first (vector_stream (@nil Z))) = None
  /\ Stream.count 0 (vector_stream (@nil Z)) = Done (0%Z, vector_stream_end [])
  /\ Stream.reduce Z.add 0 (vector_stream (@nil Z))
     = Done (None, vector_stream_end []).
Proof. repeat split; reflexivity. Qed.

Example scenario_out_of_fuel :
  Stream.count 3 (vector_stream [5; 3; 8; 1]%Z) = OutOfFuel.
Proof. reflexivity. Qed.

(** * Further properties of the members *)

Lemma keep_or_replace_pulled : forall (T : Type) (replace : T -> T -> bool)
    (rest : list T) (seed : T),
  In (fold_left (keep_or_replace replace) rest seed) (seed :: rest).
Proof.
  intros T replace. induction rest as [| value rest IH]; intro seed.
  - left. reflexivity.
  - simpl fold_left. unfold keep_or_replace at 2.
    destruct (replace value seed).
    + right. apply IH.
    + destruct (IH seed) as [Hseed | Hrest].
      * left. exact Hseed.
      * right. right. exact Hrest.
Qed.

Lemma appending_fold_elements : forall (C T : Type) (tr : concepts.container C T)
    (insert : C -> T -> C),
  (forall c x, concepts.elements tr (insert c x) = concepts.elements tr c ++ [x]) ->
  forall l result,
    concepts.elements tr (fold_left insert l result)
    = concepts.elements tr result ++ l.
Proof.
  intros C T tr insert Happend. induction l as [| x l IH]; intro result; simpl.
  - rewrite app_nil_r. reflexivity.
  - rewrite IH, Happend, <- app_assoc. reflexivity.
Qed.

(** X1. [count] returns the number of elements the chain yields, counted in
    [size_t]: the length of the pulled sequence modulo [2^64], which is the
    length itself whenever that fits. *)
Theorem count_is_length_modulo :
  forall (IMPL T : Type) `{Streamable IMPL T} (self self' : IMPL) (l : list T)
         (fuel : nat),
    drains self l self' ->
    length l <= fuel ->
    exists n,
      Stream.count fuel self = Done (n, self')
      /\ n = (Z.of_nat (length l) mod SIZE_MODULUS)%Z
      /\ (0 <= n < SIZE_MODULUS)%Z
      /\ ((Z.of_nat (length l) < SIZE_MODULUS)%Z -> n = Z.of_nat (length l)).
Proof.
  intros IMPL T H self self' l fuel Hd Hfuel.
  exists (size_t_wrap (Z.of_nat (length l))).
  split; [apply count_drains; assumption |].
  unfold size_t_wrap. split; [reflexivity |]. split.
  - apply Z.mod_pos_bound. reflexivity.
  - intro Hfits. apply Z.mod_small. lia.
Qed.

Lemma count_is_length_modulo_witness :
  drains (vector_stream [5; 3; 8; 1]%Z) [5; 3; 8; 1]%Z
         (vector_stream_end [5; 3; 8; 1]%Z)
  /\ length [5; 3; 8; 1]%Z <= 4
  /\ Stream.count 4 (vector_stream [5; 3; 8; 1]%Z)
     = Done (4%Z, vector_stream_end [5; 3; 8; 1]%Z).
Proof.
  assert (Hd : drains (vector_stream [5; 3; 8; 1]%Z) [5; 3; 8; 1]%Z
                      (vector_stream_end [5; 3; 8; 1]%Z)) by pull_all.
  assert (Hfuel : length [5; 3; 8; 1]%Z <= 4) by (simpl; lia).
  split; [exact Hd |]. split; [exact Hfuel |].
  destruct (count_is_length_modulo Hd Hfuel) as (n & Hcount & _ & _ & Hfits).
  rewrite Hcount, Hfits; [reflexivity |].
  reflexivity.
Defined.

(** X2. Whatever the stages of the chain are, [collect] into a container
    that starts empty and grows at the end returns a container holding
    exactly the pulled elements, in pull order. *)
Theorem collect_in_pull_order :
  forall (IMPL T C : Type) `{Streamable IMPL T} (tr : concepts.container C T)
         (self self' : IMPL) (l : list T) (fuel : nat),
    sequence_container tr ->
    drains self l self' ->
    length l <= fuel ->
    exists run result,
      Stream.collect tr = WellFormed run
      /\ run fuel self = Done (result, self')
      /\ concepts.elements tr result = l.
Proof.
  intros IMPL T C H tr self self' l fuel
         [_ [empty [Hempty Hnil]] Hins Hadd Hpush] Hd Hfuel.
  unfold Stream.collect, concepts.is_default_constructible.
  rewrite Hempty, Hins.
  unfold concepts.has_add_assign, concepts.has_push_back in *.
  destruct (concepts.op_add_assign tr) as [add_assign |] eqn:Ha; simpl.
  - do 2 eexists. split; [reflexivity |]. split.
    + apply collect_with_drains; eassumption.
    + rewrite (appending_fold_elements tr add_assign), Hnil; [reflexivity |].
      intros c x. apply Hadd. reflexivity.
  - destruct (concepts.push_back tr) as [push_back |] eqn:Hp; simpl;
      [| simpl in Hins; discriminate].
    do 2 eexists. split; [reflexivity |]. split.
    + apply collect_with_drains; eassumption.
    + rewrite (appending_fold_elements tr push_back), Hnil; [reflexivity |].
      intros c x. apply Hpush. reflexivity.
Qed.

Lemma collect_in_pull_order_witness :
  sequence_container (vector Z)
  /\ drains {| observed := vector_stream [5; 3; 8]%Z; pulls := 0 |} [5; 3; 8]%Z
            {| observed := vector_stream_end [5; 3; 8]%Z; pulls := 4 |}
  /\ length [5; 3; 8]%Z <= 3
  /\ exists run,
       Stream.collect (vector Z) = WellFormed run
       /\ run 3 {| observed := vector_stream [5; 3; 8]%Z; pulls := 0 |}
          = Done ([5; 3; 8]%Z,
                  {| observed := vector_stream_end [5; 3; 8]%Z; pulls := 4 |}).
Proof.
  assert (Hseq : sequence_container (vector Z)).
  { constructor; simpl.
    - reflexivity.
    - exists []. split; reflexivity.
    - reflexivity.
    - intros f c x Hf. discriminate.
    - intros f c x Hf. inversion Hf. reflexivity. }
  assert (Hd : drains {| observed := vector_stream [5; 3; 8]%Z; pulls := 0 |}
                      [5; 3; 8]%Z
                      {| observed := vector_stream_end [5; 3; 8]%Z; pulls := 4 |})
    by pull_all.
  assert (Hfuel : length [5; 3; 8]%Z <= 3) by (simpl; lia).
  split; [exact Hseq |]. split; [exact Hd |]. split; [exact Hfuel |].
  destruct (collect_in_pull_order Hseq Hd Hfuel)
    as (run & result & Hrun & Hdone & Helements).
  exists run. split; [exact Hrun |].
  simpl in Helements. subst result. exact Hdone.
Defined.

(** X3. [collect] is instantiated exactly for a default-constructible
    container with [+=] or [push_back].  When the container has [+=], every
    pulled element is inserted with [+=], in pull order, into the
    default-constructed container, and [push_back] is not used even if the
    container has it too; a container with [push_back] alone is filled with
    [push_back]. *)
Theorem collect_prefers_add_assign :
  forall (IMPL T C : Type) `{Streamable IMPL T} (tr : concepts.container C T),
    is_well_formed (Stream.collect (IMPL := IMPL) tr)
    = concepts.is_default_constructible tr
      && (concepts.has_add_assign tr || concepts.has_push_back tr)
    /\ (forall (empty : C) (add_assign : C -> T -> C) (self self' : IMPL)
               (l : list T) (fuel : nat),
          concepts.default_constructed tr = Some empty ->
          concepts.op_add_assign tr = Some add_assign ->
          drains self l self' ->
          length l <= fuel ->
          exists run,
            Stream.collect tr = WellFormed run
            /\ run fuel self = Done (fold_left add_assign l empty, self'))
    /\ (forall (empty : C) (push_back : C -> T -> C) (self self' : IMPL)
               (l : list T) (fuel : nat),
          concepts.default_constructed tr = Some empty ->
          concepts.op_add_assign tr = None ->
          concepts.push_back tr = Some push_back ->
          drains self l self' ->
          length l <= fuel ->
          exists run,
            Stream.collect tr = WellFormed run
            /\ run fuel self = Done (fold_left push_back l empty, self')).
Proof.
  intros IMPL T C H tr. split; [| split].
  - apply collect_instantiated.
  - intros empty add_assign self self' l fuel Hempty Ha Hd Hfuel.
    unfold Stream.collect, concepts.is_default_constructible,
      concepts.has_add_assign, concepts.has_push_back.
    rewrite Hempty, Ha. simpl.
    eexists. split; [reflexivity |].
    apply collect_with_drains; assumption.
  - intros empty push_back self self' l fuel Hempty Ha Hp Hd Hfuel.
    unfold Stream.collect, concepts.is_default_constructible,
      concepts.has_add_assign, concepts.has_push_back.
    rewrite Hempty, Ha, Hp. simpl.
    eexists. split; [reflexivity |].
    apply collect_with_drains; assumption.
Qed.

Lemma collect_prefers_add_assign_witness :
  concepts.default_constructed signed_log = Some []
  /\ concepts.op_add_assign signed_log = Some (fun c x => c ++ [x])
  /\ concepts.has_push_back signed_log = true
  /\ concepts.op_add_assign (vector Z) = None
  /\ concepts.push_back (vector Z) = Some (fun c x => c ++ [x])
  /\ drains (vector_stream [5; 3]%Z) [5; 3]%Z (vector_stream_end [5; 3]%Z)
  /\ (exists run,
         Stream.collect signed_log = WellFormed run
         /\ run 2 (vector_stream [5; 3]%Z)
            = Done ([5; 3]%Z, vector_stream_end [5; 3]%Z))
  /\ (exists run,
         Stream.collect (vector Z) = WellFormed run
         /\ run 2 (vector_stream [5; 3]%Z)
            = Done ([5; 3]%Z, vector_stream_end [5; 3]%Z)).
Proof.
  assert (Hempty : concepts.default_constructed signed_log = Some [])
    by reflexivity.
  assert (Ha : concepts.op_add_assign signed_log = Some (fun c x => c ++ [x]))
    by reflexivity.
  assert (Hvempty : concepts.default_constructed (vector Z) = Some [])
    by reflexivity.
  assert (Hva : concepts.op_add_assign (vector Z) = None) by reflexivity.
  assert (Hvp : concepts.push_back (vector Z) = Some (fun c x => c ++ [x]))
    by reflexivity.
  assert (Hd : drains (vector_stream [5; 3]%Z) [5; 3]%Z
                      (vector_stream_end [5; 3]%Z)) by pull_all.
  assert (Hfuel : length [5; 3]%Z <= 2) by (simpl; lia).
  destruct (@collect_prefers_add_assign (root_stream Z) Z _ _ signed_log)
    as (_ & Hwith_add & _).
  destruct (@collect_prefers_add_assign (root_stream Z) Z _ _ (vector Z))
    as (_ & _ & Hwith_push).
  split; [exact Hempty |]. split; [exact Ha |]. split; [reflexivity |].
  split; [exact Hva |]. split; [exact Hvp |]. split; [exact Hd |].
  split.
  - exact (Hwith_add _ _ _ _ _ 2 Hempty Ha Hd Hfuel).
  - exact (Hwith_push _ _ _ _ _ 2 Hvempty Hva Hvp Hd Hfuel).
Defined.





(** X6. Over an element type with [operator>] alone, a strict weak order,
    [min] is instantiated with the test [!(value > result)] and returns a
    minimal element: it is greater than no pulled element.  Among the minimal
    elements it is the one pulled last. *)
Theorem min_gth_only_last_minimal :
  forall (IMPL T : Type) `{Streamable IMPL T} (ops : concepts.element_ops T)
         (gth : T -> T -> bool) (self self' : IMPL) (seed : T) (rest : list T)
         (fuel : nat),
    concepts.op_lth ops = None ->
    concepts.op_gth ops = Some gth ->
    strict_weak_order gth ->
    drains self (seed :: rest) self' ->
    length rest <= fuel ->
    exists run x,
      Stream.min ops = WellFormed run
      /\ run fuel self = Done (Some x, self')
      /\ last_extreme gth (seed :: rest) x.
Proof.
  intros IMPL T H ops gth self self' seed rest fuel Hlth Hgth Horder Hd Hfuel.
  assert (Hlen : length (seed :: rest) <= S fuel) by (simpl; lia).
  exists (Stream.replace_scan (fun value result => negb (gth value result))).
  eexists. repeat split.
  - unfold Stream.min, concepts.has_lth, concepts.has_gth.
    rewrite Hlth, Hgth. reflexivity.
  - apply (replace_scan_drains _ Hd Hlen).
  - apply lax_replace_last_extreme. exact Horder.
Qed.

Lemma min_gth_only_last_minimal_witness :
  concepts.op_lth entry_gth_only = None
  /\ concepts.op_gth entry_gth_only = Some entry_gth
  /\ strict_weak_order entry_gth
  /\ exists run x,
       Stream.min entry_gth_only = WellFormed run
       /\ run 3 (vector_stream
                   [entry_of 1 10; entry_of 0 20; entry_of 1 30; entry_of 0 40])
          = Done (Some x,
                  vector_stream_end
                    [entry_of 1 10; entry_of 0 20; entry_of 1 30; entry_of 0 40])
       /\ last_extreme entry_gth
            [entry_of 1 10; entry_of 0 20; entry_of 1 30; entry_of 0 40] x.
Proof.
  assert (Hlth : concepts.op_lth entry_gth_only = None) by reflexivity.
  assert (Hgth : concepts.op_gth entry_gth_only = Some entry_gth) by reflexivity.
  assert (Hd : drains
                 (vector_stream
                    [entry_of 1 10; entry_of 0 20; entry_of 1 30; entry_of 0 40])
                 [entry_of 1 10; entry_of 0 20; entry_of 1 30; entry_of 0 40]
                 (vector_stream_end
                    [entry_of 1 10; entry_of 0 20; entry_of 1 30; entry_of 0 40]))
    by pull_all.
  assert (Hfuel : length [entry_of 0 20; entry_of 1 30; entry_of 0 40] <= 3)
    by (simpl; lia).
  split; [exact Hlth |]. split; [exact Hgth |].
  split; [exact entry_gth_strict_weak_order |].
  exact (min_gth_only_last_minimal entry_gth_only Hlth Hgth
           entry_gth_strict_weak_order Hd Hfuel).
Defined.

(** X7. [find_first] consumes exactly one element: on a chain yielding
    [x] and then [l] it returns [x] and leaves a chain that yields [l].  A
    second [find_first] returns the next element, and a [count] run
    afterwards counts [l] only. *)
Theorem find_first_consumes_one :
  forall (IMPL T : Type) `{Streamable IMPL T} (self self' : IMPL) (x : T)
         (l : list T) (fuel : nat),
    drains self (x :: l) self' ->
    length l <= fuel ->
    exists after_first,
      Stream.find_first self = (Some x, after_first)
      /\ drains after_first l self'
      /\ fst (Stream.find_first after_first) = hd_error l
      /\ Stream.count fuel after_first
         = Done (size_t_wrap (Z.of_nat (length l)), self').
Proof.
  intros IMPL T H self self' x l fuel Hd Hfuel.
  inversion Hd as [| ? ? after_first ? ? Hn Hrest]; subst.
  exists after_first. unfold Stream.find_first. repeat split.
  - exact Hn.
  - exact Hrest.
  - inversion Hrest as [? ? Hn' | ? ? ? ? ? Hn' _]; subst; rewrite Hn';
      reflexivity.
  - apply count_drains; assumption.
Qed.

Lemma find_first_consumes_one_witness :
  drains (vector_stream [5; 3; 8]%Z) [5; 3; 8]%Z (vector_stream_end [5; 3; 8]%Z)
  /\ length [3; 8]%Z <= 2
  /\ exists after_first,
       Stream.find_first (vector_stream [5; 3; 8]%Z) = (Some 5%Z, after_first)
       /\ fst (Stream.find_first after_first) = Some 3%Z
       /\ Stream.count 2 after_first
          = Done (2%Z, vector_stream_end [5; 3; 8]%Z).
Proof.
  assert (Hd : drains (vector_stream [5; 3; 8]%Z) [5; 3; 8]%Z
                      (vector_stream_end [5; 3; 8]%Z)) by pull_all.
  assert (Hfuel : length [3; 8]%Z <= 2) by (simpl; lia).
  split; [exact Hd |]. split; [exact Hfuel |].
  destruct (find_first_consumes_one Hd Hfuel)
    as (after_first & Hfirst & _ & Hsecond & Hcount).
  exists after_first. split; [exact Hfirst |]. split; [exact Hsecond |].
  exact Hcount.
Defined.

(** X8. A chain is consumed once.  After a terminal operation has driven a
    chain to the state in which it reports empty, and provided the chain goes
    on reporting empty there, every later terminal operation sees nothing:
    [find_first], [reduce], [sum], [min] and [max] return empty, [count]
    returns 0 and [collect] returns the default-constructed container.
    [sum], [min], [max] and [collect] are instantiated and do so whenever the
    element type or container has what their bodies use. *)
Theorem exhausted_chain_stays_consumed :
  forall (IMPL T : Type) `{Streamable IMPL T} (self self' : IMPL) (l : list T)
         (fuel : nat),
    drains self l self' ->
    next self' = (None, self') ->
    length l <= fuel ->
    (exists n, Stream.count fuel self = Done (n, self'))
    /\ (forall f, exists r, Stream.reduce f fuel self = Done (r, self'))
    /\ Stream.find_first self' = (None, self')
    /\ (forall f, sees_nothing (Stream.reduce f) self' None)
    /\ sees_nothing Stream.count self' 0%Z
    /\ (forall ops,
          concepts.has_add ops = true ->
          exists run,
            Stream.sum ops = WellFormed run /\ sees_nothing run self' None)
    /\ (forall ops,
          concepts.has_lth ops || concepts.has_gth ops = true ->
          exists run,
            Stream.min ops = WellFormed run /\ sees_nothing run self' None)
    /\ (forall ops,
          concepts.has_lth ops && concepts.has_gth ops = true ->
          exists run,
            Stream.max ops = WellFormed run /\ sees_nothing run self' None)
    /\ (forall (C : Type) (tr : concepts.container C T),
          concepts.is_default_constructible tr
          && (concepts.has_add_assign tr || concepts.has_push_back tr) = true ->
          exists run empty,
            concepts.default_constructed tr = Some empty
            /\ Stream.collect tr = WellFormed run
            /\ sees_nothing run self' empty)
    /\ (forall ops run,
          Stream.sum ops = WellFormed run
          \/ Stream.min ops = WellFormed run
          \/ Stream.max ops = WellFormed run ->
          sees_nothing run self' None)
    /\ (forall (C : Type) (tr : concepts.container C T) run,
          Stream.collect tr = WellFormed run ->
          exists empty,
            concepts.default_constructed tr = Some empty
            /\ sees_nothing run self' empty).
Proof.
  intros IMPL T H self self' l fuel Hd Hstays Hfuel.
  assert (Hnothing : drains self' [] self') by (apply drains_empty; exact Hstays).
  assert (Hreduce : forall f : T -> T -> T,
             sees_nothing (Stream.reduce f) self' None).
  { intros f later. apply (reduce_drains f Hnothing). simpl. lia. }
  assert (Hscan : forall replace : T -> T -> bool,
             sees_nothing (Stream.replace_scan replace) self' None).
  { intros replace later. apply (replace_scan_drains replace Hnothing).
    simpl. lia. }
  assert (Hcollect : forall (C : Type) (insert : C -> T -> C) (empty : C),
             sees_nothing (Stream.collect_with insert empty) self' empty).
  { intros C insert empty later. unfold Stream.collect_with. rewrite Hstays.
    destruct later; reflexivity. }
  split; [eexists; apply count_drains; eassumption |].
  split; [intro f; eexists; apply reduce_drains; [eassumption | lia] |].
  split; [exact Hstays |].
  split; [exact Hreduce |].
  split.
  { intro later. unfold Stream.count. rewrite Hstays.
    destruct later; reflexivity. }
  split.
  { intros ops Hadd. destruct (sum_instantiated (IMPL := IMPL) ops) as [_ Hsum].
    destruct (Hsum Hadd) as (add & _ & Hrun).
    eexists. split; [exact Hrun | apply Hreduce]. }
  split.
  { intros ops Hany. destruct (min_instantiated (IMPL := IMPL) ops) as [_ Hmin].
    destruct (Hmin Hany) as (replace & Hrun).
    eexists. split; [exact Hrun | apply Hscan]. }
  split.
  { intros ops Hboth. destruct (max_instantiated (IMPL := IMPL) ops) as [_ Hmax].
    destruct (Hmax Hboth) as (gth & _ & Hrun).
    eexists. split; [exact Hrun | apply Hscan]. }
  split.
  { intros C tr Hcan.
    destruct (collect_instantiated (IMPL := IMPL) tr) as [_ Hinst].
    destruct (Hinst Hcan) as (insert & empty & Hempty & Hrun).
    exists (Stream.collect_with insert empty), empty.
    split; [exact Hempty |]. split; [exact Hrun | apply Hcollect]. }
  split.
  { intros ops run [Hsum | [Hmin | Hmax]].
    - destruct (sum_well_formed _ Hsum) as (add & _ & ->). apply Hreduce.
    - destruct (min_well_formed _ Hmin) as (replace & -> & _). apply Hscan.
    - destruct (max_well_formed _ Hmax) as (gth & _ & ->). apply Hscan. }
  intros C tr run Hrun.
  destruct (collect_well_formed _ Hrun) as (insert & empty & Hempty & -> & _).
  exists empty. split; [exact Hempty | apply Hcollect].
Qed.

Lemma exhausted_chain_stays_consumed_witness :
  drains (vector_stream [5; 3; 8]%Z) [5; 3; 8]%Z (vector_stream_end [5; 3; 8]%Z)
  /\ next (vector_stream_end [5; 3; 8]%Z) = (None, vector_stream_end [5; 3; 8]%Z)
  /\ length [5; 3; 8]%Z <= 3
  /\ concepts.has_add int_ops = true
  /\ concepts.has_lth int_ops || concepts.has_gth int_ops = true
  /\ concepts.has_lth int_ops && concepts.has_gth int_ops = true
  /\ concepts.is_default_constructible (vector Z)
     && (concepts.has_add_assign (vector Z) || concepts.has_push_back (vector Z))
     = true
  /\ (exists n,
         Stream.count 3 (vector_stream [5; 3; 8]%Z)
         = Done (n, vector_stream_end [5; 3; 8]%Z))
  /\ Stream.count 3 (vector_stream_end [5; 3; 8]%Z)
     = Done (0%Z, vector_stream_end [5; 3; 8]%Z)
  /\ Stream.reduce Z.add 3 (vector_stream_end [5; 3; 8]%Z)
     = Done (None, vector_stream_end [5; 3; 8]%Z)
  /\ (exists run,
         Stream.sum int_ops = WellFormed run
         /\ run 3 (vector_stream_end [5; 3; 8]%Z)
            = Done (None, vector_stream_end [5; 3; 8]%Z))
  /\ (exists run,
         Stream.min int_ops = WellFormed run
         /\ run 3 (vector_stream_end [5; 3; 8]%Z)
            = Done (None, vector_stream_end [5; 3; 8]%Z))
  /\ (exists run,
         Stream.max int_ops = WellFormed run
         /\ run 3 (vector_stream_end [5; 3; 8]%Z)
            = Done (None, vector_stream_end [5; 3; 8]%Z))
  /\ (exists run,
         Stream.collect (vector Z) = WellFormed run
         /\ run 3 (vector_stream_end [5; 3; 8]%Z)
            = Done ([], vector_stream_end [5; 3; 8]%Z)).
Proof.
  assert (Hd : drains (vector_stream [5; 3; 8]%Z) [5; 3; 8]%Z
                      (vector_stream_end [5; 3; 8]%Z)) by pull_all.
  assert (Hstays : next (vector_stream_end [5; 3; 8]%Z)
                   = (None, vector_stream_end [5; 3; 8]%Z)) by reflexivity.
  assert (Hfuel : length [5; 3; 8]%Z <= 3) by (simpl; lia).
  assert (Hadd : concepts.has_add int_ops = true) by reflexivity.
  assert (Hany : concepts.has_lth int_ops || concepts.has_gth int_ops = true)
    by reflexivity.
  assert (Hboth : concepts.has_lth int_ops && concepts.has_gth int_ops = true)
    by reflexivity.
  assert (Hcan : concepts.is_default_constructible (vector Z)
                 && (concepts.has_add_assign (vector Z)
                     || concepts.has_push_back (vector Z)) = true)
    by reflexivity.
  destruct (exhausted_chain_stays_consumed Hd Hstays Hfuel)
    as (Hfirst & _ & _ & Hreduce & Hcount & Hsum & Hmin & Hmax & Hcollect & _).
  destruct (Hsum int_ops Hadd) as (sum_run & Hsum_run & Hsum_nothing).
  destruct (Hmin int_ops Hany) as (min_run & Hmin_run & Hmin_nothing).
  destruct (Hmax int_ops Hboth) as (max_run & Hmax_run & Hmax_nothing).
  destruct (Hcollect _ (vector Z) Hcan)
    as (collect_run & empty & Hempty & Hcollect_run & Hcollect_nothing).
  split; [exact Hd |]. split; [exact Hstays |]. split; [exact Hfuel |].
  split; [exact Hadd |]. split; [exact Hany |]. split; [exact Hboth |].
  split; [exact Hcan |]. split; [exact Hfirst |].
  split; [apply Hcount |]. split; [apply Hreduce |].
  split; [exists sum_run; split; [exact Hsum_run | apply Hsum_nothing] |].
  split; [exists min_run; split; [exact Hmin_run | apply Hmin_nothing] |].
  split; [exists max_run; split; [exact Hmax_run | apply Hmax_nothing] |].
  exists collect_run. split; [exact Hcollect_run |].
  inversion Hempty; subst empty. apply Hcollect_nothing.
Defined.

(** X9. For a copyable element type [T] and a callable whose parameter is
    [T], [T&], [const T&] or [T&&], what the [requires] clauses of the
    chaining operations let through depends on the parameter and not on the
    result type: [filter] accepts all of them except [T&&], and [map] all of
    them except [T&].  A callable taking the element by value or by
    [const T&] is accepted by both. *)
Theorem chaining_constraints :
  forall (IMPL F : Type) (shape : callable.signature) (self : IMPL) (f : F),
    is_well_formed (Stream.filter shape self f)
    = match callable.sig_parameter shape with
      | callable.rvalue_ref => false
      | _ => true
      end
    /\ is_well_formed (Stream.map shape self f)
       = match callable.sig_parameter shape with
         | callable.lvalue_ref => false
         | _ => true
         end.
Proof.
  intros IMPL F [result parameter] self f.
  unfold Stream.filter, Stream.filter_requires, Stream.map, Stream.map_requires,
    callable.invoke_result, callable.is_convertible.
  destruct result, parameter; split; reflexivity.
Qed.

(** X10. With the limit stage pulling as its description has it, [limit(n)]
    yields the first [n] elements of its upstream in order, all of them when
    there are fewer; and [limit(n).limit(m)] yields the first [min(n, m)]. *)
Theorem limit_yields_prefix :
  forall (IMPL T : Type) `{Streamable IMPL T} (self self' : IMPL) (l : list T)
         (n m : Z),
    drains self l self' ->
    (0 <= n < SIZE_MODULUS)%Z ->
    (0 <= m < SIZE_MODULUS)%Z ->
    (exists final,
        drains (Stream.limit self n) (firstn (Z.to_nat n) l) final)
    /\ (exists final,
          drains (Stream.limit (Stream.limit self n) m)
                 (firstn (Z.to_nat (Z.min n m)) l) final).
Proof.
  intros IMPL T H self self' l n m Hd Hn Hm.
  destruct (limit_drains Hd (max_count := n) (count := 0%Z)) as [final Hfinal];
    [lia | lia |].
  rewrite Z.sub_0_r in Hfinal. split.
  - exists final. exact Hfinal.
  - destruct (limit_drains Hfinal (max_count := m) (count := 0%Z))
      as [final' Hfinal']; [lia | lia |].
    rewrite Z.sub_0_r, firstn_firstn in Hfinal'.
    exists final'.
    replace (Z.to_nat (Z.min n m)) with (Nat.min (Z.to_nat m) (Z.to_nat n))
      by lia.
    exact Hfinal'.
Qed.

Lemma limit_yields_prefix_witness :
  drains (vector_stream [5; 3; 8; 1]%Z) [5; 3; 8; 1]%Z
         (vector_stream_end [5; 3; 8; 1]%Z)
  /\ (0 <= 3 < SIZE_MODULUS)%Z
  /\ (0 <= 2 < SIZE_MODULUS)%Z
  /\ (exists final,
         drains (Stream.limit (vector_stream [5; 3; 8; 1]%Z) 3) [5; 3; 8]%Z final)
  /\ (exists final,
         drains (Stream.limit (Stream.limit (vector_stream [5; 3; 8; 1]%Z) 3) 2)
                [5; 3]%Z final).
Proof.
  assert (Hd : drains (vector_stream [5; 3; 8; 1]%Z) [5; 3; 8; 1]%Z
                      (vector_stream_end [5; 3; 8; 1]%Z)) by pull_all.
  assert (Hn : (0 <= 3 < SIZE_MODULUS)%Z) by (split; reflexivity || discriminate).
  assert (Hm : (0 <= 2 < SIZE_MODULUS)%Z) by (split; reflexivity || discriminate).
  split; [exact Hd |]. split; [exact Hn |]. split; [exact Hm |].
  exact (limit_yields_prefix Hd Hn Hm).
Defined.

(** X11. When the element type has both operators, [min] consults
    [operator<] alone and [max] consults [operator>] alone, so neither needs
    the two to agree: if [operator<] is a strict weak order [min] returns the
    first element that no pulled element is less than, and if [operator>] is
    one [max] returns the first element that no pulled element is greater
    than. *)
Theorem min_max_use_one_operator_each :
  forall (IMPL T : Type) `{Streamable IMPL T} (ops : concepts.element_ops T)
         (lth gth : T -> T -> bool) (self self' : IMPL) (seed : T)
         (rest : list T) (fuel : nat),
    concepts.op_lth ops = Some lth ->
    concepts.op_gth ops = Some gth ->
    drains self (seed :: rest) self' ->
    length rest <= fuel ->
    (strict_weak_order lth ->
     exists run x,
       Stream.min ops = WellFormed run
       /\ run fuel self = Done (Some x, self')
       /\ first_extreme lth (seed :: rest) x)
    /\ (strict_weak_order gth ->
        exists run x,
          Stream.max ops = WellFormed run
          /\ run fuel self = Done (Some x, self')
          /\ first_extreme gth (seed :: rest) x).
Proof.
  intros IMPL T H ops lth gth self self' seed rest fuel Hlth Hgth Hd Hfuel.
  assert (Hlen : length (seed :: rest) <= S fuel) by (simpl; lia).
  split; intro Horder.
  - exists (Stream.replace_scan (fun value result => lth value result)).
    eexists. repeat split.
    + unfold Stream.min, concepts.has_lth. rewrite Hlth. reflexivity.
    + apply (replace_scan_drains _ Hd Hlen).
    + apply strict_replace_first_extreme. exact Horder.
  - exists (Stream.replace_scan (fun value result => gth value result)).
    eexists. repeat split.
    + unfold Stream.max, concepts.has_lth. rewrite Hlth, Hgth. reflexivity.
    + apply (replace_scan_drains _ Hd Hlen).
    + apply strict_replace_first_extreme. exact Horder.
Qed.

Lemma min_max_use_one_operator_each_witness :
  concepts.op_lth backwards_ops = Some Z.ltb
  /\ concepts.op_gth backwards_ops = Some Z.ltb
  /\ strict_weak_order Z.ltb
  /\ (exists run,
         Stream.min backwards_ops = WellFormed run
         /\ run 3 (vector_stream [5; 3; 8; 1]%Z)
            = Done (Some 1%Z, vector_stream_end [5; 3; 8; 1]%Z))
  /\ (exists run,
         Stream.max backwards_ops = WellFormed run
         /\ run 3 (vector_stream [5; 3; 8; 1]%Z)
            = Done (Some 1%Z, vector_stream_end [5; 3; 8; 1]%Z)).
Proof.
  assert (Hlth : concepts.op_lth backwards_ops = Some Z.ltb) by reflexivity.
  assert (Hgth : concepts.op_gth backwards_ops = Some Z.ltb) by reflexivity.
  assert (Hd : drains (vector_stream [5; 3; 8; 1]%Z) [5; 3; 8; 1]%Z
                      (vector_stream_end [5; 3; 8; 1]%Z)) by pull_all.
  assert (Hfuel : length [3; 8; 1]%Z <= 3) by (simpl; lia).
  split; [exact Hlth |]. split; [exact Hgth |].
  split; [exact Z_ltb_strict_weak_order |].
  destruct (min_max_use_one_operator_each backwards_ops Hlth Hgth Hd Hfuel)
    as [Hmin Hmax].
  destruct (Hmin Z_ltb_strict_weak_order) as (run1 & x1 & Hrun1 & Hdone1 & _).
  destruct (Hmax Z_ltb_strict_weak_order) as (run2 & x2 & Hrun2 & Hdone2 & _).
  split.
  - exists run1. split; [exact Hrun1 |].
    inversion Hrun1; subst run1. reflexivity.
  - exists run2. split; [exact Hrun2 |].
    inversion Hrun2; subst run2. reflexivity.
Defined.


